(** * Leadflow backend: document store, lead advancement and realtime fan-out

    A shallow embedding of [database.py] (the in-memory document store and
    the repository helpers) and of [main.py] (the connection manager and the
    [advance_lead] route), with the properties the specification states
    about them.

    Conventions of the embedding.
    - A Python value is a [value]; a dict is an association list in
      insertion order, looked up by its first binding ([dict_get]) and
      written in place or appended ([dict_set]), as a Python dict iterates.
    - A raised exception is the [Raise] branch of [result]; code that reads
      and writes the database, the connection registry or the clock runs in
      the state monad [M] over [world].
    - [bson.ObjectId], [repr] of non-string values, the clock and the
      outcome of a WebSocket send are not code of this repository: they are
      the Variables of Section [Routes].
    - Stored values are modelled by their content.  The sharing of a nested
      list between a stored document and the copy [find] hands out is
      modelled in Module [Shared], on a heap of list objects. *)

From Stdlib Require Import String Ascii ZArith List Bool Arith Lia.
From Stdlib Require Import DecimalString DecimalNat.
Import ListNotations.
Local Open Scope string_scope.
Local Open Scope list_scope.

(** ** Python values *)

#[local] Set Warnings "-register-all".

Inductive value : Type :=
| VNone
| VInt (z : Z)
| VStr (s : string)
| VOid (hex : string)            (* bson.ObjectId, by its hex digest *)
| VTime (t : Z)                  (* datetime, as an instant *)
| VList (xs : list value)
| VDict (kvs : list (string * value)).

Definition dict := list (string * value).

(** [d.get(k)] as an option; the first binding of [k]. *)
Fixpoint assoc {A : Type} (k : string) (d : list (string * A)) : option A :=
  match d with
  | [] => None
  | (k', v) :: d' => if String.eqb k k' then Some v else assoc k d'
  end.

(** Python [==] on the modelled values: lists compare element by element,
    dicts by key (whatever the insertion order), values of different types
    are different. *)
Fixpoint py_eq (a b : value) {struct a} : bool :=
  match a, b with
  | VNone, VNone => true
  | VInt x, VInt y => Z.eqb x y
  | VStr s, VStr t => String.eqb s t
  | VOid s, VOid t => String.eqb s t
  | VTime s, VTime t => Z.eqb s t
  | VList xs, VList ys =>
      (fix go (xs ys : list value) {struct xs} : bool :=
         match xs, ys with
         | [], [] => true
         | x :: xs', y :: ys' => py_eq x y && go xs' ys'
         | _, _ => false
         end) xs ys
  | VDict d1, VDict d2 =>
      Nat.eqb (length d1) (length d2) &&
      (fix go (d : list (string * value)) {struct d} : bool :=
         match d with
         | [] => true
         | (k, v) :: d' =>
             match assoc k d2 with
             | Some w => py_eq v w
             | None => false
             end && go d'
         end) d1
  | _, _ => false
  end.

(** Truth value of an object, as [if x:] and [not x] test it. *)
Definition py_truthy (v : value) : bool :=
  match v with
  | VNone => false
  | VInt z => negb (Z.eqb z 0)
  | VStr s => negb (String.eqb s "")
  | VOid _ => true
  | VTime _ => true
  | VList xs => match xs with [] => false | _ => true end
  | VDict kvs => match kvs with [] => false | _ => true end
  end.

(** [x in xs] for a list [xs]. *)
Definition py_in (x : value) (xs : list value) : bool :=
  existsb (fun e => py_eq e x) xs.

(** ** Exceptions *)

Inductive exn : Type :=
| HTTPException (status_code : Z) (detail : string)
| ValueError
| IndexError
| KeyError
| TypeError
| AttributeError
| RuntimeError.

Inductive result (A : Type) : Type :=
| Ok (a : A)
| Raise (e : exn).
Arguments Ok {A} a.
Arguments Raise {A} e.

(** [xs.index(x)]: the first position holding a value equal to [x]. *)
Fixpoint index_from (x : value) (xs : list value) (i : nat) : option nat :=
  match xs with
  | [] => None
  | e :: xs' => if py_eq e x then Some i else index_from x xs' (S i)
  end.

Definition py_index (x : value) (xs : list value) : result Z :=
  match index_from x xs 0 with
  | Some i => Ok (Z.of_nat i)
  | None => Raise ValueError
  end.

(** [xs[i]], negative [i] counting from the end. *)
Definition py_getitem (xs : list value) (i : Z) : result value :=
  let n := Z.of_nat (length xs) in
  let j := if (i <? 0)%Z then (i + n)%Z else i in
  if ((0 <=? j) && (j <? n))%Z
  then match nth_error xs (Z.to_nat j) with
       | Some v => Ok v
       | None => Raise IndexError
       end
  else Raise IndexError.

(** ** Dicts *)

Definition dict_get (k : string) (d : dict) : value :=
  match assoc k d with
  | Some v => v
  | None => VNone
  end.

Definition dict_get_default (k : string) (dflt : value) (d : dict) : value :=
  match assoc k d with
  | Some v => v
  | None => dflt
  end.

(** [d[k] = v]: overwrite the binding where it stands, or add it last. *)
Fixpoint assoc_set {A : Type} (k : string) (v : A) (d : list (string * A))
  : list (string * A) :=
  match d with
  | [] => [(k, v)]
  | (k', v') :: d' =>
      if String.eqb k k' then (k', v) :: d' else (k', v') :: assoc_set k v d'
  end.

Definition dict_set (k : string) (v : value) (d : dict) : dict :=
  assoc_set k v d.

Fixpoint dict_remove (k : string) (d : dict) : dict :=
  match d with
  | [] => []
  | (k', v') :: d' =>
      if String.eqb k k' then d' else (k', v') :: dict_remove k d'
  end.

(** ** Filters

    A filter dict maps a field name to a value.  [_match_filter] tests
    [isinstance(v, dict) and "$in" in v]: [OneOf cands] is such a value, the
    dict [{"$in": cands}] with a list of candidates, and [Literal v] any
    other value. *)

Inductive filter_value : Type :=
| Literal (v : value)
| OneOf (cands : list value).

Definition filter := list (string * filter_value).

Fixpoint _match_filter (doc : dict) (filt : filter) : bool :=
  match filt with
  | [] => true
  | (k, OneOf cands) :: filt' =>
      if negb (py_in (dict_get k doc) cands) then false
      else _match_filter doc filt'
  | (k, Literal v) :: filt' =>
      if negb (py_eq (dict_get k doc) v) then false
      else _match_filter doc filt'
  end.

(** ** MemoryCollection *)

(** [store] is the dict id -> document, in insertion order. *)
Record MemoryCollection : Type := mkCollection {
  name : string;
  store : list (value * dict);
  _auto : nat
}.

Definition string_of_nat (n : nat) : string :=
  NilEmpty.string_of_uint (Nat.to_uint n).

Definition _gen_id (c : MemoryCollection) : MemoryCollection * string :=
  let n := S (_auto c) in
  (mkCollection (name c) (store c) n,
   ("mem_" ++ name c ++ "_" ++ string_of_nat n)%string).

(** Lists and dicts are unhashable and cannot key a dict. *)
Definition hashable (v : value) : bool :=
  match v with
  | VList _ | VDict _ => false
  | _ => true
  end.

Fixpoint store_get (k : value) (s : list (value * dict)) : option dict :=
  match s with
  | [] => None
  | (k', d) :: s' => if py_eq k' k then Some d else store_get k s'
  end.

Fixpoint store_set (k : value) (d : dict) (s : list (value * dict))
  : list (value * dict) :=
  match s with
  | [] => [(k, d)]
  | (k', d') :: s' =>
      if py_eq k' k then (k', d) :: s' else (k', d') :: store_set k d s'
  end.

(** [find]: the matching documents in store order, each one copied
    ([dict(doc)]; a copy of a value is the value). *)
Definition find (c : MemoryCollection) (filter_dict : filter) : list dict :=
  List.filter (fun doc => _match_filter doc filter_dict) (map snd (store c)).

Definition find_one (c : MemoryCollection) (filter_dict : filter)
  : option dict :=
  match find c filter_dict with
  | doc :: _ => Some doc
  | [] => None
  end.

Definition insert_one (c : MemoryCollection) (data : dict)
  : MemoryCollection * string :=
  let (c1, _id) := _gen_id c in
  let to_insert := dict_set "_id" (VStr _id) data in
  (mkCollection (name c1) (store_set (VStr _id) to_insert (store c1)) (_auto c1),
   _id).

(** The update document: its ["$set"] and ["$push"] entries, when present. *)
Record update : Type := mkUpdate {
  u_set : option dict;
  u_push : option dict
}.

Fixpoint apply_set (sets : dict) (current : dict) : dict :=
  match sets with
  | [] => current
  | (k, v) :: sets' => apply_set sets' (dict_set k v current)
  end.

(** [current.setdefault(k, []); current[k].append(v)] for each pushed
    field.  [append] exists on lists only; when it raises, [current] keeps
    what was written before. *)
Fixpoint apply_push (pushes : dict) (current : dict) : dict * result unit :=
  match pushes with
  | [] => (current, Ok tt)
  | (k, v) :: pushes' =>
      let current1 :=
        match assoc k current with
        | Some _ => current
        | None => dict_set k (VList []) current
        end in
      match dict_get k current1 with
      | VList xs => apply_push pushes' (dict_set k (VList (xs ++ [v])) current1)
      | _ => (current1, Raise AttributeError)
      end
  end.

Definition is_empty_dict (d : dict) : bool :=
  match d with [] => true | _ => false end.

Definition with_store (c : MemoryCollection) (s : list (value * dict))
  : MemoryCollection :=
  mkCollection (name c) s (_auto c).

(** [update_one] mutates the stored dict [current] in place: what [$set]
    wrote stays written when a later [$push] raises. *)
Definition update_one (c : MemoryCollection) (filter_dict : filter)
           (update_doc : update) : MemoryCollection * result unit :=
  match find_one c filter_dict with
  | None => (c, Ok tt)
  | Some doc =>
      if is_empty_dict doc then (c, Ok tt) else
      match assoc "_id" doc with
      | None => (c, Raise KeyError)
      | Some key =>
          if negb (hashable key) then (c, Raise TypeError) else
          match store_get key (store c) with
          | None => (c, Raise KeyError)
          | Some current =>
              let current1 :=
                match u_set update_doc with
                | Some sets => apply_set sets current
                | None => current
                end in
              let (current2, r) :=
                match u_push update_doc with
                | Some pushes => apply_push pushes current1
                | None => (current1, Ok tt)
                end in
              (with_store c (store_set key current2 (store c)), r)
          end
      end
  end.

(** ** MemoryDB *)

(** [_raw[n]] and the [store] of [_collections[n]] are one dict object under
    two names; the model keeps it once, in the collection. *)
Record MemoryDB : Type := mkDB {
  db_name : string;
  _collections : list (string * MemoryCollection)
}.

(** The collection object [db[n]] evaluates to. *)
Definition peek (db : MemoryDB) (n : string) : MemoryCollection :=
  match assoc n (_collections db) with
  | Some c => c
  | None => mkCollection n [] 0
  end.

(** The database after [db[n]] was evaluated: [__getitem__] creates the
    collection on first reference. *)
Definition touch (db : MemoryDB) (n : string) : MemoryDB :=
  match assoc n (_collections db) with
  | Some _ => db
  | None => mkDB (db_name db) (_collections db ++ [(n, mkCollection n [] 0)])
  end.

Definition getitem (db : MemoryDB) (n : string) : MemoryDB * MemoryCollection :=
  (touch db n, peek db n).

(** The collection object registered under [n] after a method mutated it. *)
Definition put (db : MemoryDB) (n : string) (c : MemoryCollection) : MemoryDB :=
  mkDB (db_name db) (assoc_set n c (_collections db)).

Definition list_collection_names (db : MemoryDB) : list string :=
  map fst (_collections db).

(** ** Repository helpers *)

(** [xs[:n]]. *)
Definition py_slice_to {A : Type} (xs : list A) (n : Z) : list A :=
  if (n <? 0)%Z
  then firstn (Z.to_nat (Z.max 0 (Z.of_nat (length xs) + n))) xs
  else firstn (Z.to_nat n) xs.

Definition get_documents (db : MemoryDB) (collection_name : string)
           (filter_dict : option filter) (limit : option Z)
  : MemoryDB * list dict :=
  let (db1, c) := getitem db collection_name in
  let docs := find c (match filter_dict with Some f => f | None => [] end) in
  let docs1 :=
    match limit with
    | Some n => if negb (Z.eqb n 0) then py_slice_to docs n else docs
    | None => docs
    end in
  (db1, docs1).

(** ** ConnectionManager *)

(** A WebSocket object, by identity. *)
Definition observer := nat.

Record ConnectionManager : Type := mkManager {
  active_connections : list (string * list observer)
}.

(** [l.remove(x)]: drop the first occurrence; [None] is [ValueError]. *)
Fixpoint list_remove (x : observer) (l : list observer)
  : option (list observer) :=
  match l with
  | [] => None
  | y :: l' =>
      if Nat.eqb y x then Some l'
      else match list_remove x l' with
           | Some r => Some (y :: r)
           | None => None
           end
  end.

(** [connect], once the handshake [websocket.accept()] has returned. *)
Definition connect (m : ConnectionManager) (project_id : string)
           (websocket : observer) : ConnectionManager :=
  let l := match assoc project_id (active_connections m) with
           | Some l => l
           | None => []
           end in
  mkManager (assoc_set project_id (l ++ [websocket]) (active_connections m)).

Definition disconnect (m : ConnectionManager) (project_id : string)
           (websocket : observer) : ConnectionManager :=
  match assoc project_id (active_connections m) with
  | Some l =>
      match list_remove websocket l with
      | Some l' => mkManager (assoc_set project_id l' (active_connections m))
      | None => m
      end
  | None => m
  end.

Definition observers (m : ConnectionManager) (project_id : string)
  : list observer :=
  match assoc project_id (active_connections m) with
  | Some l => l
  | None => []
  end.

(** ** The state the routes run in *)

(** One [send_json] call: the observer, the message, and whether it was
    delivered. *)
Definition send_event : Type := observer * value * bool.

Record world : Type := mkWorld {
  w_db : MemoryDB;
  w_manager : ConnectionManager;
  w_clock : nat;                   (* clock readings taken so far *)
  w_sent : list send_event         (* sends attempted so far, oldest first *)
}.

Definition M (A : Type) : Type := world -> world * result A.

Definition ret {A : Type} (a : A) : M A := fun w => (w, Ok a).

Definition raise {A : Type} (e : exn) : M A := fun w => (w, Raise e).

Definition lift {A : Type} (r : result A) : M A := fun w => (w, r).

Definition bind {A B : Type} (m : M A) (k : A -> M B) : M B :=
  fun w =>
    match m w with
    | (w1, Ok a) => k a w1
    | (w1, Raise e) => (w1, Raise e)
    end.

Notation "x <- m ;; k" := (bind m (fun x => k))
  (at level 61, m at next level, right associativity).
Notation "m ;;; k" := (bind m (fun _ => k))
  (at level 61, right associativity).

Definition set_db (db : MemoryDB) (w : world) : world :=
  mkWorld db (w_manager w) (w_clock w) (w_sent w).

Definition set_manager (m : ConnectionManager) (w : world) : world :=
  mkWorld (w_db w) m (w_clock w) (w_sent w).

(** [db[n]]. *)
Definition db_getitem (n : string) : M unit :=
  fun w => (set_db (touch (w_db w) n) w, Ok tt).

Definition coll_find_one (n : string) (filter_dict : filter)
  : M (option dict) :=
  fun w => (w, Ok (find_one (peek (w_db w) n) filter_dict)).

Definition coll_update_one (n : string) (filter_dict : filter)
           (update_doc : update) : M unit :=
  fun w =>
    let (c, r) := update_one (peek (w_db w) n) filter_dict update_doc in
    (set_db (put (w_db w) n c) w, r).

(** ** Vocabulary of the store properties *)

(** One filter entry, as the specification words it: the field equals the
    literal, or is one of the candidates. *)
Definition field_matches (doc : dict) (k : string) (fv : filter_value) : Prop :=
  match fv with
  | Literal v => py_eq (dict_get k doc) v = true
  | OneOf cands => exists c, In c cands /\ py_eq c (dict_get k doc) = true
  end.

(** The shape [insert_one] gives a store: every document is filed under the
    value of its own [_id] field, a hashable value, and no key occurs
    twice. *)
Fixpoint store_keyed (s : list (value * dict)) : bool :=
  match s with
  | [] => true
  | (k, d) :: s' =>
      hashable k &&
      match assoc "_id" d with
      | Some k' => py_eq k' k
      | None => false
      end &&
      negb (existsb (fun kd => py_eq (fst kd) k) s') &&
      store_keyed s'
  end.

Definition set_fields (u : update) : dict :=
  match u_set u with Some sets => sets | None => [] end.

Definition push_fields (u : update) : dict :=
  match u_push u with Some pushes => pushes | None => [] end.

(** The values pushed to field [f], in the order of the operator. *)
Definition pushed (f : string) (pushes : dict) : list value :=
  map snd (List.filter (fun kv => String.eqb f (fst kv)) pushes).

(** The sequence held by a field; an absent field holds none. *)
Definition seq_of (field : option value) : list value :=
  match field with
  | Some (VList xs) => xs
  | _ => []
  end.

(** Every pushed field is absent or holds a sequence. *)
Definition pushable (d : dict) (pushes : dict) : bool :=
  forallb (fun kv => match assoc (fst kv) d with
                     | None | Some (VList _) => true
                     | _ => false
                     end) pushes.

(** What [$set] leaves in field [f]. *)
Definition after_set (sets : dict) (d : dict) (f : string) : option value :=
  match assoc f (rev sets) with
  | Some v => Some v
  | None => assoc f d
  end.

(** The lead document once [advance_lead] has written to it. *)
Definition advanced_from (lead lead' : dict)
           (new_step status updated_at entry : value) : Prop :=
  assoc "current_step" lead' = Some new_step /\
  assoc "status" lead' = Some status /\
  assoc "updated_at" lead' = Some updated_at /\
  assoc "history" lead' =
    Some (VList (seq_of (assoc "history" lead) ++ [entry])) /\
  forall f, f <> "current_step" -> f <> "status" -> f <> "updated_at" ->
            f <> "history" -> assoc f lead' = assoc f lead.

(** Nothing was written and nothing was sent between [w] and [w']. *)
Definition quiet (w w' : world) : Prop :=
  (forall n, peek (w_db w') n = peek (w_db w) n) /\
  w_manager w' = w_manager w /\
  w_sent w' = w_sent w /\
  w_clock w' = w_clock w.

(** "status is won exactly when current_step is the last step [last]". *)
Definition won_iff_last (last : value) (lead : dict) : bool :=
  Bool.eqb (py_eq (dict_get "status" lead) (VStr "won"))
           (py_eq (dict_get "current_step" lead) last).

(** ** More of the collections, for the other routes *)

Definition coll_find (n : string) (filter_dict : filter) : M (list dict) :=
  fun w => (w, Ok (find (peek (w_db w) n) filter_dict)).

Definition coll_insert_one (n : string) (data : dict) : M string :=
  fun w =>
    let (c, _id) := insert_one (peek (w_db w) n) data in
    (set_db (put (w_db w) n c) w, Ok _id).

(** The id [_gen_id] builds from the counter value [i]. *)
Definition generated_id (collection : string) (i : nat) : string :=
  ("mem_" ++ collection ++ "_" ++ string_of_nat i)%string.


(** Every stored document carries a string as its [_id], as [insert_one]
    writes it. *)
Definition string_ids (s : list (value * dict)) : bool :=
  forallb (fun kd => match assoc "_id" (snd kd) with
                     | Some (VStr _) => true
                     | _ => false
                     end) s.

(** [l.pop("_id")] then [l["id"] = str(...)], given [str]. *)
Definition rename_id (str : value -> string) (doc : dict) : result dict :=
  match assoc "_id" doc with
  | Some _id => Ok (dict_set "id" (VStr (str _id)) (dict_remove "_id" doc))
  | None => Raise KeyError
  end.

(** The loop [for l in docs: l["id"] = str(l.pop("_id"))]. *)
Fixpoint rename_ids (str : value -> string) (docs : list dict)
  : result (list dict) :=
  match docs with
  | [] => Ok []
  | d :: ds =>
      match rename_id str d with
      | Ok d' =>
          match rename_ids str ds with
          | Ok ds' => Ok (d' :: ds')
          | Raise e => Raise e
          end
      | Raise e => Raise e
      end
  end.

(** ** The routes of [main.py] *)

Section Routes.

(** [bson.ObjectId(x)]: the hex digest of the identifier built from [x], or
    [None] when the constructor raises. *)
Variable ObjectId : value -> option string.

(** [str(x)] for the values whose text is not the value itself. *)
Variable py_repr : value -> string.

(** [datetime.now(timezone.utc)], by the number of readings taken before. *)
Variable utcnow : nat -> Z.

(** Whether [ws.send_json(message)] returns ([true]) or raises: a property
    of the connection and of the message. *)
Variable send_json : observer -> value -> bool.

Definition to_obj_id (id_str : value) : result value :=
  match ObjectId id_str with
  | Some hex => Ok (VOid hex)
  | None => Raise (HTTPException 400 "Invalid ID format")
  end.

Definition py_str (v : value) : string :=
  match v with
  | VStr s => s
  | VOid hex => hex
  | VNone => "None"
  | _ => py_repr v
  end.

Definition datetime_now : M value :=
  fun w =>
    (mkWorld (w_db w) (w_manager w) (S (w_clock w)) (w_sent w),
     Ok (VTime (utcnow (w_clock w)))).

(** [await ws.send_json(message)]. *)
Definition ws_send (ws : observer) (message : value) : M unit :=
  fun w =>
    let ok := send_json ws message in
    (mkWorld (w_db w) (w_manager w) (w_clock w) (w_sent w ++ [(ws, message, ok)]),
     if ok then Ok tt else Raise RuntimeError).

(** The loop of [broadcast] over the snapshot [list(...)] of the observers;
    [except Exception] catches whatever the send raised. *)
Fixpoint broadcast_loop (project_id : string) (message : value)
         (snapshot : list observer) : M unit :=
  match snapshot with
  | [] => ret tt
  | ws :: rest =>
      fun w =>
        match ws_send ws message w with
        | (w1, Ok _) => broadcast_loop project_id message rest w1
        | (w1, Raise _) =>
            broadcast_loop project_id message rest
              (set_manager (disconnect (w_manager w1) project_id ws) w1)
        end
  end.

Definition broadcast (project_id : string) (message : value) : M unit :=
  fun w =>
    broadcast_loop project_id message (observers (w_manager w) project_id) w.

(** [payload.to_step], an [Optional[str]]. *)
Definition payload_value (to_step : option string) : value :=
  match to_step with
  | Some s => VStr s
  | None => VNone
  end.

(** [project.get("steps", [])].  [Project.steps] is declared [List[str]];
    the route is modelled for a [steps] field that is absent or a list, and
    every other stored shape is reported as [TypeError]. *)
Definition as_steps (v : value) : result (list value) :=
  match v with
  | VList xs => Ok xs
  | _ => Raise TypeError
  end.

(** Lines 263-270 of [advance_lead]: the step the lead moves to. *)
Definition next_step (steps : list value) (current_step : value)
           (to_step : option string) : result value :=
  if py_truthy (payload_value to_step) && py_in (payload_value to_step) steps
  then Ok (payload_value to_step)
  else
    match
      match py_index current_step steps with
      | Ok idx =>
          py_getitem steps (Z.min (idx + 1) (Z.of_nat (length steps) - 1))
      | Raise e => Raise e
      end
    with
    | Raise ValueError =>
        if py_truthy (VList steps) then py_getitem steps 0 else Ok current_step
    | r => r
    end.

(** Lines 272-274: the status written with the new step. *)
Definition next_status (lead : dict) (steps : list value) (new_step : value)
  : result value :=
  let status := dict_get_default "status" (VStr "active") lead in
  match py_getitem steps (-1) with
  | Ok last => Ok (if py_eq new_step last then VStr "won" else status)
  | Raise e => Raise e
  end.

Definition history_entry (project : dict) (lead_id : string)
           (current_step new_step created_at : value) : value :=
  VDict [("project_id", VStr (py_str (dict_get "_id" project)));
         ("lead_id", VStr lead_id);
         ("type", VStr "advanced");
         ("from_step", current_step);
         ("to_step", new_step);
         ("created_at", created_at)].

Definition advance_update (project : dict) (lead_id : string)
           (current_step new_step status updated_at created_at : value)
  : update :=
  mkUpdate
    (Some [("current_step", new_step);
           ("status", status);
           ("updated_at", updated_at)])
    (Some [("history",
            history_entry project lead_id current_step new_step created_at)]).

Definition lead_advanced (lead_id : string) (current_step new_step : value)
  : value :=
  VDict [("type", VStr "lead_advanced");
         ("lead_id", VStr lead_id);
         ("from", current_step);
         ("to", new_step)].

(** Line 257: the project of the lead, or the demo project for a lead
    without [project_id]. *)
Definition find_project (lead : dict) : M (option dict) :=
  if negb (py_truthy (dict_get "project_id" lead))
  then
    db_getitem "project" ;;;
    coll_find_one "project" [("name", Literal (VStr "Leadflow Demo"))]
  else
    db_getitem "project" ;;;
    pid <- lift (to_obj_id (dict_get "project_id" lead)) ;;
    coll_find_one "project" [("_id", Literal pid)].

(** [if not x] for the result of [find_one]: [None] or an empty dict. *)
Definition found (x : option dict) : option dict :=
  match x with
  | Some d => if is_empty_dict d then None else Some d
  | None => None
  end.

Definition advance_lead (lead_id : string) (to_step : option string) : M dict :=
  db_getitem "lead" ;;;
  oid <- lift (to_obj_id (VStr lead_id)) ;;
  lead <- coll_find_one "lead" [("_id", Literal oid)] ;;
  match found lead with
  | None => raise (HTTPException 404 "Lead not found")
  | Some lead =>
      project <- find_project lead ;;
      match found project with
      | None => raise (HTTPException 400 "Project not found for lead")
      | Some project =>
          steps <- lift (as_steps (dict_get_default "steps" (VList []) project)) ;;
          let current_step := dict_get "current_step" lead in
          new_step <- lift (next_step steps current_step to_step) ;;
          status <- lift (next_status lead steps new_step) ;;
          db_getitem "lead" ;;;
          oid1 <- lift (to_obj_id (VStr lead_id)) ;;
          updated_at <- datetime_now ;;
          created_at <- datetime_now ;;
          coll_update_one "lead" [("_id", Literal oid1)]
            (advance_update project lead_id current_step new_step status
                            updated_at created_at) ;;;
          broadcast (py_str (dict_get "_id" project))
                    (lead_advanced lead_id current_step new_step) ;;;
          db_getitem "lead" ;;;
          oid2 <- lift (to_obj_id (VStr lead_id)) ;;
          updated <- coll_find_one "lead" [("_id", Literal oid2)] ;;
          match updated with
          | None => raise AttributeError
          | Some updated =>
              match assoc "_id" updated with
              | None => raise KeyError
              | Some _id =>
                  ret (dict_set "id" (VStr (py_str _id))
                                (dict_remove "_id" updated))
              end
          end
      end
  end.

(** Reading the state a route runs in *)

(** The project line 257 looks up, read off the database. *)
Definition resolve_project (db : MemoryDB) (lead : dict)
  : result (option dict) :=
  if negb (py_truthy (dict_get "project_id" lead))
  then Ok (find_one (peek db "project")
                    [("name", Literal (VStr "Leadflow Demo"))])
  else match to_obj_id (dict_get "project_id" lead) with
       | Ok pid => Ok (find_one (peek db "project") [("_id", Literal pid)])
       | Raise e => Raise e
       end.

(** The lead [advance_lead] locates, read off the database. *)
Definition stored_lead (db : MemoryDB) (lead_id : string)
  : result (option dict) :=
  match to_obj_id (VStr lead_id) with
  | Ok oid => Ok (found (find_one (peek db "lead") [("_id", Literal oid)]))
  | Raise e => Raise e
  end.

(** The project [advance_lead] goes on with. *)
Definition project_of (db : MemoryDB) (lead : dict) : result (option dict) :=
  match resolve_project db lead with
  | Ok project => Ok (found project)
  | Raise e => Raise e
  end.

(** The state in which [advance_lead] finds the lead [lead], its project
    [project] and a non-empty list [steps], with a history it can extend. *)
Definition can_advance (w : world) (lead_id : string) (oid : value)
           (lead project : dict) (steps : list value) : Prop :=
  to_obj_id (VStr lead_id) = Ok oid /\
  store_keyed (store (peek (w_db w) "lead")) = true /\
  find_one (peek (w_db w) "lead") [("_id", Literal oid)] = Some lead /\
  resolve_project (w_db w) lead = Ok (Some project) /\
  is_empty_dict project = false /\
  dict_get_default "steps" (VList []) project = VList steps /\
  py_truthy (VList steps) = true /\
  pushable lead [("history", VNone)] = true.



(** ** The other routes, and [create_document] *)

(** [create_document] of [database.py], for [data] given as a dict (a
    [BaseModel] is dumped to one first). *)
Definition create_document (collection_name : string) (data : dict)
  : M string :=
  now <- datetime_now ;;
  let data_dict :=
    match assoc "created_at" data with
    | Some _ => data
    | None => dict_set "created_at" now data
    end in
  let data_dict := dict_set "updated_at" now data_dict in
  db_getitem collection_name ;;;
  _id <- coll_insert_one collection_name data_dict ;;
  ret _id.

Definition get_by_id (collection detail : string) (id : string) : M dict :=
  db_getitem collection ;;;
  oid <- lift (to_obj_id (VStr id)) ;;
  doc <- coll_find_one collection [("_id", Literal oid)] ;;
  match found doc with
  | None => raise (HTTPException 404 detail)
  | Some doc => lift (rename_id py_str doc)
  end.

Definition get_project (project_id : string) : M dict :=
  get_by_id "project" "Project not found" project_id.

Definition get_lead (lead_id : string) : M dict :=
  get_by_id "lead" "Lead not found" lead_id.

Definition list_projects : M (list dict) :=
  db_getitem "project" ;;;
  projects <- coll_find "project" [] ;;
  lift (rename_ids py_str projects).

(** The query [get_leads] builds: a parameter that is [None] or empty adds
    no condition. *)
Definition leads_query (project_id assigned_to : option string) : filter :=
  (if py_truthy (payload_value project_id)
   then [("project_id", Literal (payload_value project_id))] else []) ++
  (if py_truthy (payload_value assigned_to)
   then [("assigned_to", Literal (payload_value assigned_to))] else []).

Definition get_leads (project_id assigned_to : option string)
  : M (list dict) :=
  db_getitem "lead" ;;;
  leads <- coll_find "lead" (leads_query project_id assigned_to) ;;
  lift (rename_ids py_str leads).

(** [random.choice]. *)
Variable random_choice : list dict -> dict.

(** [advance_random] calls [advance_lead(str(lead["_id"]))], one argument
    for the two parameters [lead_id] and [payload]: the call raises
    [TypeError] before the body of [advance_lead] runs. *)
Definition advance_random (project_id : string) : M dict :=
  db_getitem "lead" ;;;
  leads <- coll_find "lead" [("project_id", Literal (VStr project_id))] ;;
  match leads with
  | [] => raise (HTTPException 404 "No leads in project")
  | _ =>
      let lead := random_choice leads in
      match assoc "_id" lead with
      | None => raise KeyError
      | Some _ => raise TypeError
      end
  end.

End Routes.

(** ** Lists shared between the store and a returned copy *)

Module Shared.

(** A list object lives on the heap, at an address; a document field holds
    a plain value or the address of a list object.  [dict(doc)] copies the
    bindings of [doc]: the copy holds the same addresses. *)
Definition address := nat.

Inductive field : Type :=
| Plain (v : value)
| Ref (a : address).

Definition document := list (string * field).

Definition heap := list (list value).

Definition load (h : heap) (f : field) : value :=
  match f with
  | Plain v => v
  | Ref a => VList (nth a h [])
  end.

(** The content of a document, its lists read off the heap. *)
Definition view (h : heap) (d : document) : dict :=
  map (fun kf => (fst kf, load h (snd kf))) d.

Definition view_store (h : heap) (s : list (value * document))
  : list (value * dict) :=
  map (fun kd => (fst kd, view h (snd kd))) s.

(** [MemoryCollection.find]: [yield dict(doc)] for every matching [doc]. *)
Definition find (h : heap) (s : list (value * document)) (filter_dict : filter)
  : list document :=
  List.filter (fun doc => _match_filter (view h doc) filter_dict) (map snd s).

(** [MemoryCollection.find_one]: [dict(doc)] of the first one. *)
Definition find_one (h : heap) (s : list (value * document))
           (filter_dict : filter) : option document :=
  match find h s filter_dict with
  | doc :: _ => Some doc
  | [] => None
  end.

Fixpoint heap_set (a : address) (xs : list value) (h : heap) : heap :=
  match h, a with
  | [], _ => []
  | _ :: h', O => xs :: h'
  | ys :: h', S a' => ys :: heap_set a' xs h'
  end.

(** A caller running [doc[k].append(v)] on a document it was handed. *)
Definition item_append (h : heap) (doc : document) (k : string) (v : value)
  : heap :=
  match assoc k doc with
  | Some (Ref a) => heap_set a (nth a h [] ++ [v]) h
  | _ => h
  end.

(** A caller running [doc[k] = v]: the binding changes in its own dict. *)
Definition item_set (doc : document) (k : string) (v : value) : document :=
  assoc_set k (Plain v) doc.

End Shared.

(** ** The earlier backend, [backend/database.py] and [backend/main.py] *)

Module Backend.

Definition STEPS : list value :=
  [VStr "New"; VStr "Qualified"; VStr "Meeting"; VStr "Closed"].

(** The loop of [find] over the items of the filter: every field equal. *)
Fixpoint matches (d : dict) (filter_dict : dict) : bool :=
  match filter_dict with
  | [] => true
  | (k, v) :: filter_dict' =>
      if negb (py_eq (dict_get k d) v) then false else matches d filter_dict'
  end.

(** [MemoryCollection.find] yields the stored dicts themselves, not copies:
    a yielded document is given by its position in [data], through which
    the caller reads and writes the stored object.  An empty filter is
    falsy and yields every document, as the loop does. *)
Fixpoint find_from (i : nat) (data : list dict) (filter_dict : dict)
  : list nat :=
  match data with
  | [] => []
  | d :: data' =>
      if matches d filter_dict then i :: find_from (S i) data' filter_dict
      else find_from (S i) data' filter_dict
  end.

Definition find (data : list dict) (filter_dict : dict) : list nat :=
  find_from 0 data filter_dict.

Definition find_one (data : list dict) (filter_dict : dict) : option nat :=
  match find data filter_dict with
  | r :: _ => Some r
  | [] => None
  end.

Definition count_documents (data : list dict) (filter_dict : dict) : nat :=
  length (find data filter_dict).

(** The object at position [r]. *)
Definition deref (data : list dict) (r : nat) : dict := nth r data [].

(** The store once the object at position [r] has been mutated into [d]. *)
Fixpoint store_at (r : nat) (d : dict) (data : list dict) : list dict :=
  match data, r with
  | [], _ => []
  | _ :: data', O => d :: data'
  | d0 :: data', S r' => d0 :: store_at r' d data'
  end.

(** The route [advance]; [None] is the answer
    [{"ok": False, "error": "lead_not_found"}], [Some lead] the answer
    [{"ok": True, "lead": lead}], and [now] what [time.time()] returns. *)
Definition advance (lead_id : string) (now : value) (data : list dict)
  : list dict * result (option dict) :=
  match find_one data [("_id", VStr lead_id)] with
  | None => (data, Ok None)
  | Some r =>
      let lead := deref data r in
      if is_empty_dict lead then (data, Ok None) else
      match assoc "step" lead with
      | None => (data, Raise KeyError)
      | Some step =>
          match
            if py_in step STEPS then py_index step STEPS else Ok 0%Z
          with
          | Raise e => (data, Raise e)
          | Ok idx =>
              match py_getitem STEPS
                               (Z.min (idx + 1) (Z.of_nat (length STEPS) - 1))
              with
              | Raise e => (data, Raise e)
              | Ok new_step =>
                  let lead1 := dict_set "step" new_step lead in
                  let lead2 := dict_set "updated_at" now lead1 in
                  (store_at r lead2 data, Ok (Some lead2))
              end
          end
      end
  end.

(** The route [assign]; [user_id] is the [Optional[str]] of the request. *)
Definition assign (lead_id : string) (user_id : value) (now : value)
           (data : list dict) : list dict * result (option dict) :=
  match find_one data [("_id", VStr lead_id)] with
  | None => (data, Ok None)
  | Some r =>
      let lead := deref data r in
      if is_empty_dict lead then (data, Ok None) else
      let lead1 := dict_set "assigned_to" user_id lead in
      let lead2 := dict_set "updated_at" now lead1 in
      (store_at r lead2 data, Ok (Some lead2))
  end.

(** The position in [STEPS] that [advance] starts from: the position of the
    lead's step, position 0 for a step that is none of [STEPS]. *)
Definition rank (step : value) : nat :=
  match index_from step STEPS 0 with
  | Some i => i
  | None => 0
  end.

(** [advance] called for the same lead at the times [nows], in order. *)
Fixpoint advance_times (lead_id : string) (nows : list value)
         (data : list dict) : list dict :=
  match nows with
  | [] => data
  | now :: nows' => advance_times lead_id nows' (fst (advance lead_id now data))
  end.

End Backend.

(** ** A demo database *)

Definition hex_digit (c : ascii) : bool :=
  let n := nat_of_ascii c in
  ((48 <=? n) && (n <=? 57) || (97 <=? n) && (n <=? 102))%nat.

(** An [ObjectId] constructor for the examples: it takes a string of 24
    lower-case hex digits, or an ObjectId. *)
Definition demo_ObjectId (v : value) : option string :=
  match v with
  | VStr s =>
      if Nat.eqb (String.length s) 24 && forallb hex_digit (list_ascii_of_string s)
      then Some s else None
  | VOid hex => Some hex
  | _ => None
  end.

Definition demo_repr (v : value) : string := "<object>".

Definition demo_utcnow (n : nat) : Z := (1700000000 + Z.of_nat n)%Z.

(** Observer 2 has a broken connection. *)
Definition demo_send_json (ws : observer) (message : value) : bool :=
  negb (Nat.eqb ws 2).

Definition demo_project_id : string := "aaaaaaaaaaaaaaaaaaaaaaaa".
Definition demo_lead_id : string := "bbbbbbbbbbbbbbbbbbbbbbbb".

Definition demo_project (steps : list value) : dict :=
  [("_id", VOid demo_project_id);
   ("name", VStr "Leadflow Demo");
   ("steps", VList steps);
   ("members", VList [])].

Definition demo_lead (project_id current_step status : string) : dict :=
  [("_id", VOid demo_lead_id);
   ("name", VStr "Leo 100");
   ("project_id", VStr project_id);
   ("current_step", VStr current_step);
   ("status", VStr status);
   ("history",
    VList [VDict [("project_id", VStr demo_project_id);
                  ("lead_id", VStr "");
                  ("type", VStr "created");
                  ("to_step", VStr current_step)]])].

Definition demo_world (project lead : dict) : world :=
  mkWorld
    (mkDB "memory"
          [("project",
            mkCollection "project" [(VOid demo_project_id, project)] 0);
           ("lead", mkCollection "lead" [(VOid demo_lead_id, lead)] 0)])
    (mkManager [(demo_project_id, [1; 2; 3])])
    0 [].

Definition abc : list value := [VStr "A"; VStr "B"; VStr "C"].

Definition demo_advance : string -> option string -> M dict :=
  advance_lead demo_ObjectId demo_repr demo_utcnow demo_send_json.

Definition demo_collection : MemoryCollection :=
  mkCollection "lead"
    [(VStr "mem_lead_1",
      [("_id", VStr "mem_lead_1"); ("name", VStr "Leo"); ("status", VStr "new")]);
     (VStr "mem_lead_2",
      [("_id", VStr "mem_lead_2"); ("name", VStr "Maya"); ("status", VStr "new");
       ("notes", VList [VStr "called"])])]
    2.

Definition demo_update : update :=
  mkUpdate (Some [("status", VStr "active")])
           (Some [("notes", VStr "met"); ("history", VStr "advanced")]).


Definition shared_heap : Shared.heap := [[VStr "created"]].

Definition shared_store : list (value * Shared.document) :=
  [(VStr "mem_lead_1",
    [("_id", Shared.Plain (VStr "mem_lead_1"));
     ("status", Shared.Plain (VStr "new"));
     ("history", Shared.Ref 0)])].


(** * Properties *)

(** ** Association lists *)

Lemma assoc_set_same {A : Type} (k : string) (v : A) (d : list (string * A)) :
  assoc k (assoc_set k v d) = Some v.
Proof.
  induction d as [|[k' v'] d IH]; simpl.
  - now rewrite String.eqb_refl.
  - destruct (String.eqb k k') eqn:E; simpl; rewrite E; auto.
Qed.

Lemma assoc_set_other {A : Type} (k k0 : string) (v : A)
      (d : list (string * A)) :
  k0 <> k -> assoc k0 (assoc_set k v d) = assoc k0 d.
Proof.
  intros Hne. induction d as [|[k' v'] d IH]; simpl.
  - destruct (String.eqb k0 k) eqn:E; auto.
    apply String.eqb_eq in E. contradiction.
  - destruct (String.eqb k k') eqn:E; simpl.
    + apply String.eqb_eq in E. subst k'.
      destruct (String.eqb k0 k) eqn:E0; auto.
      apply String.eqb_eq in E0. contradiction.
    + now rewrite IH.
Qed.

Lemma assoc_app_none {A : Type} (k : string) (d e : list (string * A)) :
  assoc k d = None -> assoc k (d ++ e) = assoc k e.
Proof.
  induction d as [|[k' v'] d IH]; simpl; auto.
  destruct (String.eqb k k'); auto. discriminate.
Qed.

Lemma assoc_app_some {A : Type} (k : string) (d e : list (string * A)) (v : A) :
  assoc k d = Some v -> assoc k (d ++ e) = Some v.
Proof.
  induction d as [|[k' v'] d IH]; simpl; try discriminate.
  destruct (String.eqb k k'); auto.
Qed.

(** ** Equality of values *)

Lemma py_eq_VNone_l (v : value) : py_eq VNone v = true -> v = VNone.
Proof. destruct v; simpl; congruence. Qed.

Lemma py_eq_VNone_r (v : value) : py_eq v VNone = true -> v = VNone.
Proof. destruct v; simpl; congruence. Qed.

Lemma py_eq_VStr_r (v : value) (s : string) :
  py_eq v (VStr s) = true -> v = VStr s.
Proof.
  destruct v; simpl; try congruence.
  intros H. apply String.eqb_eq in H. now subst.
Qed.

Lemma py_eq_VOid_r (v : value) (h : string) :
  py_eq v (VOid h) = true -> v = VOid h.
Proof.
  destruct v; simpl; try congruence.
  intros H. apply String.eqb_eq in H. now subst.
Qed.

Lemma py_eq_hashable_refl (k : value) : hashable k = true -> py_eq k k = true.
Proof.
  destruct k; simpl; try congruence; intros _;
    auto using String.eqb_refl, Z.eqb_refl.
Qed.

Lemma py_eq_hashable (k k' : value) :
  hashable k = true -> py_eq k' k = true -> k' = k.
Proof.
  destruct k; simpl; try congruence; intros _; destruct k'; simpl;
    try congruence; intros H;
    try (apply String.eqb_eq in H); try (apply Z.eqb_eq in H); now subst.
Qed.

(** ** Filters *)

Lemma match_filter_iff (doc : dict) (filt : filter) :
  _match_filter doc filt = true <->
  forall k fv, In (k, fv) filt -> field_matches doc k fv.
Proof.
  induction filt as [|[k fv] filt IH]; simpl.
  - split; auto. intros _ k fv [].
  - destruct fv as [v|cands].
    + destruct (py_eq (dict_get k doc) v) eqn:E; simpl.
      * rewrite IH. split.
        -- intros H k0 fv0 [H0|H0]; [inversion H0; subst; exact E | auto].
        -- intros H k0 fv0 H0. apply H. now right.
      * split; [discriminate|].
        intros H. specialize (H k (Literal v) (or_introl eq_refl)).
        simpl in H. congruence.
    + destruct (py_in (dict_get k doc) cands) eqn:E; simpl.
      * rewrite IH. split.
        -- intros H k0 fv0 [H0|H0]; [|auto].
           inversion H0; subst. simpl.
           unfold py_in in E. apply existsb_exists in E. exact E.
        -- intros H k0 fv0 H0. apply H. now right.
      * split; [discriminate|].
        intros H. specialize (H k (OneOf cands) (or_introl eq_refl)).
        simpl in H. unfold py_in in E.
        apply existsb_exists in H. congruence.
Qed.

Lemma find_one_first (c : MemoryCollection) (filt : filter) (d : dict) :
  find_one c filt = Some d <->
  exists pre post,
    map snd (store c) = pre ++ d :: post /\
    _match_filter d filt = true /\
    forall x, In x pre -> _match_filter x filt = false.
Proof.
  unfold find_one, find. generalize (map snd (store c)) as docs.
  induction docs as [|x docs IH]; simpl.
  - split; [discriminate|]. intros (pre & post & H & _).
    destruct pre; discriminate.
  - destruct (_match_filter x filt) eqn:E.
    + split.
      * intros H. inversion H; subst. exists [], docs. simpl. intuition.
      * intros (pre & post & H & Hm & Hpre). destruct pre as [|y pre].
        -- simpl in H. congruence.
        -- simpl in H. inversion H; subst.
           specialize (Hpre y (or_introl eq_refl)). congruence.
    + rewrite IH. split.
      * intros (pre & post & H & Hm & Hpre). exists (x :: pre), post.
        subst docs. simpl. repeat split; auto.
        intros y [Hy|Hy]; [now subst | auto].
      * intros (pre & post & H & Hm & Hpre). destruct pre as [|y pre].
        -- simpl in H. inversion H; subst. congruence.
        -- simpl in H. inversion H; subst. exists pre, post.
           repeat split; auto. intros z Hz. apply Hpre. now right.
Qed.

Lemma find_one_none (c : MemoryCollection) (filt : filter) :
  find_one c filt = None <->
  forall d, In d (map snd (store c)) -> _match_filter d filt = false.
Proof.
  unfold find_one, find. generalize (map snd (store c)) as docs.
  induction docs as [|x docs IH]; simpl.
  - split; auto. intros _ d [].
  - destruct (_match_filter x filt) eqn:E.
    + split; [discriminate|]. intros H.
      specialize (H x (or_introl eq_refl)). congruence.
    + rewrite IH. split.
      * intros H d [Hd|Hd]; [now subst | auto].
      * intros H d Hd. apply H. now right.
Qed.

(** C4.  [find] returns exactly the stored documents in which every
    literally filtered field equals the document's value for that field and
    every [$in]-filtered field has its document value among the candidates;
    [find_one] returns the first of them in store order, or nothing when
    there is none.  A missing field reads as [None]: a document missing a
    filtered field matches only when the literal is [None], or [None] is one
    of the [$in] candidates. *)
Theorem find_returns_exactly_the_matching_documents
        (c : MemoryCollection) (filt : filter) :
  (forall d,
      In d (find c filt) <->
      In d (map snd (store c)) /\
      forall k fv, In (k, fv) filt -> field_matches d k fv) /\
  (forall d,
      find_one c filt = Some d <->
      exists pre post,
        map snd (store c) = pre ++ d :: post /\
        (forall k fv, In (k, fv) filt -> field_matches d k fv) /\
        forall x, In x pre ->
                  ~ (forall k fv, In (k, fv) filt -> field_matches x k fv)) /\
  (find_one c filt = None <-> find c filt = []) /\
  (forall d k fv,
      In d (find c filt) -> In (k, fv) filt -> assoc k d = None ->
      match fv with
      | Literal v => v = VNone
      | OneOf cands => In VNone cands
      end).
Proof.
  assert (Hin : forall d,
             In d (find c filt) <->
             In d (map snd (store c)) /\
             forall k fv, In (k, fv) filt -> field_matches d k fv).
  { intros d. unfold find. rewrite filter_In, match_filter_iff. tauto. }
  split; [exact Hin|]. split; [|split].
  - intros d. split.
    + intros H. rewrite find_one_first in H.
      destruct H as (pre & post & H & Hm & Hpre). exists pre, post.
      repeat split; auto.
      * now apply match_filter_iff.
      * intros x Hx Hall. apply match_filter_iff in Hall.
        rewrite (Hpre x Hx) in Hall. discriminate.
    + intros (pre & post & H & Hm & Hpre). apply find_one_first.
      exists pre, post. repeat split; auto.
      * now apply match_filter_iff.
      * intros x Hx. destruct (_match_filter x filt) eqn:E; auto.
        exfalso. apply (Hpre x Hx). now apply match_filter_iff.
  - unfold find_one. destruct (find c filt); split; congruence.
  - intros d k fv Hd Hk Hmiss. apply Hin in Hd. destruct Hd as [_ Hall].
    specialize (Hall k fv Hk). unfold field_matches, dict_get in Hall.
    rewrite Hmiss in Hall. destruct fv as [v|cands].
    + now apply py_eq_VNone_l.
    + destruct Hall as (x & Hx & Hx'). apply py_eq_VNone_r in Hx'.
      now subst.
Qed.

(** ** The collections of a database *)

Lemma peek_touch (db : MemoryDB) (n m : string) :
  peek (touch db n) m = peek db m.
Proof.
  unfold touch, peek. destruct (assoc n (_collections db)) eqn:E; auto.
  simpl. destruct (assoc m (_collections db)) eqn:E'.
  - now rewrite (assoc_app_some _ _ _ _ E').
  - rewrite (assoc_app_none _ _ _ E'). simpl.
    destruct (String.eqb m n) eqn:Emn; auto.
    apply String.eqb_eq in Emn. now subst.
Qed.

Lemma peek_put_same (db : MemoryDB) (n : string) (c : MemoryCollection) :
  peek (put db n c) n = c.
Proof. unfold peek, put. simpl. now rewrite assoc_set_same. Qed.

Lemma peek_put_other (db : MemoryDB) (n m : string) (c : MemoryCollection) :
  m <> n -> peek (put db n c) m = peek db m.
Proof. intros H. unfold peek, put. simpl. now rewrite assoc_set_other. Qed.

(** C10.  [get_documents] truncates only on a truthy [limit]: with
    [limit = 0] it returns what it returns without a limit, all the matching
    documents, and with a positive [limit] the first [limit] of them. *)
Theorem get_documents_limit_zero_returns_all
        (db : MemoryDB) (collection_name : string) (filter_dict : option filter) :
  let all := find (peek db collection_name)
                  (match filter_dict with Some f => f | None => [] end) in
  get_documents db collection_name filter_dict (Some 0%Z) =
    get_documents db collection_name filter_dict None /\
  snd (get_documents db collection_name filter_dict (Some 0%Z)) = all /\
  snd (get_documents db collection_name filter_dict None) = all /\
  forall p : positive,
    snd (get_documents db collection_name filter_dict (Some (Z.pos p))) =
      firstn (Pos.to_nat p) all.
Proof.
  unfold get_documents, getitem. simpl. repeat split.
Qed.

(** ** The connection registry *)

Lemma observers_disconnect_same (m : ConnectionManager) (p : string)
      (ws : observer) :
  observers (disconnect m p ws) p =
  match list_remove ws (observers m p) with
  | Some l => l
  | None => observers m p
  end.
Proof.
  unfold disconnect, observers.
  destruct (assoc p (active_connections m)) as [l|] eqn:E; simpl.
  - destruct (list_remove ws l) eqn:R; simpl.
    + now rewrite assoc_set_same.
    + now rewrite E.
  - now rewrite E.
Qed.

Lemma observers_disconnect_other (m : ConnectionManager) (p q : string)
      (ws : observer) :
  q <> p -> observers (disconnect m p ws) q = observers m q.
Proof.
  intros H. unfold disconnect, observers.
  destruct (assoc p (active_connections m)) as [l|] eqn:E; auto.
  destruct (list_remove ws l) eqn:R; simpl; auto.
  now rewrite assoc_set_other.
Qed.

Lemma list_remove_count (x y : observer) (l l' : list observer) :
  list_remove x l = Some l' ->
  count_occ Nat.eq_dec l' y =
  if Nat.eq_dec x y then pred (count_occ Nat.eq_dec l y)
  else count_occ Nat.eq_dec l y.
Proof.
  revert l'. induction l as [|z l IH]; simpl; intros l' H; [discriminate|].
  destruct (Nat.eqb z x) eqn:E.
  - apply Nat.eqb_eq in E. subst z. inversion H; subst.
    destruct (Nat.eq_dec x y); auto.
  - apply Nat.eqb_neq in E. destruct (list_remove x l) eqn:R; [|discriminate].
    inversion H; subst. simpl. rewrite (IH _ eq_refl).
    destruct (Nat.eq_dec z y), (Nat.eq_dec x y); auto; congruence.
Qed.

Lemma list_remove_filter (ok : observer -> bool) (x : observer)
      (l l' : list observer) :
  ok x = false -> list_remove x l = Some l' ->
  List.filter ok l' = List.filter ok l.
Proof.
  intros Hx. revert l'. induction l as [|z l IH]; simpl; intros l' H;
    [discriminate|].
  destruct (Nat.eqb z x) eqn:E.
  - apply Nat.eqb_eq in E. subst z. inversion H; subst. now rewrite Hx.
  - destruct (list_remove x l) eqn:R; [|discriminate].
    inversion H; subst. simpl. now rewrite (IH _ eq_refl).
Qed.

Lemma list_remove_none (x : observer) (l : list observer) :
  list_remove x l = None -> count_occ Nat.eq_dec l x = 0.
Proof.
  induction l as [|z l IH]; simpl; auto.
  destruct (Nat.eqb z x) eqn:E; [discriminate|].
  apply Nat.eqb_neq in E. destruct (list_remove x l); [discriminate|].
  intros _. destruct (Nat.eq_dec z x); [contradiction|auto].
Qed.

Lemma filter_all_ok (ok : observer -> bool) (l : list observer) :
  (forall x, ok x = false -> count_occ Nat.eq_dec l x = 0) ->
  List.filter ok l = l.
Proof.
  induction l as [|z l IH]; simpl; intros H; auto.
  destruct (ok z) eqn:E.
  - f_equal. apply IH. intros x Hx. specialize (H x Hx).
    destruct (Nat.eq_dec z x); [discriminate|auto].
  - specialize (H z E). destruct (Nat.eq_dec z z); [discriminate|congruence].
Qed.

Section RouteProperties.

Variable ObjectId : value -> option string.
Variable py_repr : value -> string.
Variable utcnow : nat -> Z.
Variable send_json : observer -> value -> bool.

(** The loop of [broadcast], run on a snapshot that holds every failing
    observer at least as often as the registry does. *)
Lemma broadcast_loop_spec (p : string) (message : value)
      (snapshot : list observer) :
  forall w,
    (forall x, send_json x message = false ->
               count_occ Nat.eq_dec (observers (w_manager w) p) x <=
               count_occ Nat.eq_dec snapshot x) ->
    exists w',
      broadcast_loop send_json p message snapshot w = (w', Ok tt) /\
      observers (w_manager w') p =
        List.filter (fun x => send_json x message) (observers (w_manager w) p) /\
      (forall q, q <> p ->
                 observers (w_manager w') q = observers (w_manager w) q) /\
      w_sent w' =
        w_sent w ++ map (fun x => (x, message, send_json x message)) snapshot /\
      w_db w' = w_db w /\ w_clock w' = w_clock w.
Proof.
  induction snapshot as [|ws rest IH]; intros w Hcount.
  - exists w. simpl. repeat split; auto.
    + symmetry. apply filter_all_ok. intros x Hx.
      specialize (Hcount x Hx). simpl in Hcount. lia.
    + now rewrite app_nil_r.
  - simpl. unfold ws_send.
    destruct (send_json ws message) eqn:E.
    + edestruct (IH (mkWorld (w_db w) (w_manager w) (w_clock w)
                             (w_sent w ++ [(ws, message, true)])))
        as (w' & Hrun & Hobs & Hoth & Hsent & Hdb & Hclk).
      { simpl. intros x Hx. specialize (Hcount x Hx). simpl in Hcount.
        destruct (Nat.eq_dec ws x); [congruence | exact Hcount]. }
      exists w'. simpl in *. repeat split; auto.
      rewrite Hsent, <- app_assoc. simpl. rewrite ?E. reflexivity.
    + set (w1 := mkWorld (w_db w) (w_manager w) (w_clock w)
                         (w_sent w ++ [(ws, message, false)])).
      edestruct (IH (set_manager (disconnect (w_manager w1) p ws) w1))
        as (w' & Hrun & Hobs & Hoth & Hsent & Hdb & Hclk).
      { simpl. intros x Hx. rewrite observers_disconnect_same.
        specialize (Hcount x Hx). simpl in Hcount.
        destruct (list_remove ws (observers (w_manager w) p)) eqn:R.
        - rewrite (list_remove_count _ x _ _ R).
          destruct (Nat.eq_dec ws x); lia.
        - destruct (Nat.eq_dec ws x); [|exact Hcount].
          subst x. rewrite (list_remove_none _ _ R). lia. }
      exists w'. simpl in *. repeat split; auto.
      * rewrite Hobs, observers_disconnect_same.
        destruct (list_remove ws (observers (w_manager w) p)) eqn:R; auto.
        now apply list_remove_filter with (x := ws).
      * intros q Hq. rewrite (Hoth q Hq).
        now apply observers_disconnect_other.
      * rewrite Hsent, <- app_assoc. simpl. rewrite ?E. reflexivity.
Qed.

(** C9.  [broadcast] never raises; it attempts one send to every observer
    registered for the project, in order, whatever the earlier sends did, so
    every observer whose send succeeds receives the event; the observers
    whose send failed are gone from the project's registry afterwards, the
    others stay, and the registries of other projects are untouched. *)
Theorem broadcast_prunes_failed_observers
        (project_id : string) (message : value) (w : world) :
  exists w',
    broadcast send_json project_id message w = (w', Ok tt) /\
    w_sent w' =
      w_sent w ++ map (fun x => (x, message, send_json x message))
                      (observers (w_manager w) project_id) /\
    observers (w_manager w') project_id =
      List.filter (fun x => send_json x message)
                  (observers (w_manager w) project_id) /\
    (forall ws, In ws (observers (w_manager w) project_id) ->
                send_json ws message = false ->
                ~ In ws (observers (w_manager w') project_id)) /\
    (forall ws, In ws (observers (w_manager w) project_id) ->
                send_json ws message = true ->
                In (ws, message, true) (w_sent w') /\
                In ws (observers (w_manager w') project_id)) /\
    (forall q, q <> project_id ->
               observers (w_manager w') q = observers (w_manager w) q).
Proof.
  destruct (broadcast_loop_spec project_id message
              (observers (w_manager w) project_id) w)
    as (w' & Hrun & Hobs & Hoth & Hsent & _); [auto|].
  exists w'. split; [exact Hrun|]. split; [exact Hsent|].
  split; [exact Hobs|]. split; [|split; [|exact Hoth]].
  - intros ws _ Hfail Hin. rewrite Hobs in Hin.
    apply filter_In in Hin. destruct Hin as [_ Hok]. congruence.
  - intros ws Hin Hok. split.
    + rewrite Hsent. apply in_or_app. right.
      apply in_map_iff. exists ws. rewrite Hok. auto.
    + rewrite Hobs. apply filter_In. auto.
Qed.

End RouteProperties.

(** ** The store of a collection *)

Lemma py_eq_hashable_l (k k' : value) :
  hashable k = true -> py_eq k k' = true -> k' = k.
Proof.
  destruct k; simpl; try congruence; intros _; destruct k'; simpl;
    try congruence; intros H;
    try (apply String.eqb_eq in H); try (apply Z.eqb_eq in H); now subst.
Qed.

Lemma store_get_none (k : value) (s : list (value * dict)) :
  existsb (fun kd => py_eq (fst kd) k) s = false -> store_get k s = None.
Proof.
  induction s as [|[k0 d0] s IH]; simpl; auto.
  destruct (py_eq k0 k); simpl; [discriminate|auto].
Qed.

Lemma store_keyed_in (s : list (value * dict)) (k : value) (d : dict) :
  store_keyed s = true -> In (k, d) s ->
  assoc "_id" d = Some k /\ hashable k = true /\ store_get k s = Some d.
Proof.
  induction s as [|[k0 d0] s IH]; simpl; [tauto|].
  intros H Hin. apply andb_prop in H. destruct H as [H Hs].
  apply andb_prop in H. destruct H as [H Hfresh].
  apply andb_prop in H. destruct H as [Hh Hid].
  destruct Hin as [Heq|Hin].
  - inversion Heq; subst. rewrite (py_eq_hashable_refl _ Hh).
    destruct (assoc "_id" d) as [k'|]; [|discriminate].
    now rewrite (py_eq_hashable _ _ Hh Hid).
  - destruct (IH Hs Hin) as (Ha & Hb & Hc). repeat split; auto.
    destruct (py_eq k0 k) eqn:E; auto.
    apply (py_eq_hashable _ _ Hb) in E. subst k0.
    apply negb_true_iff in Hfresh. apply store_get_none in Hfresh.
    congruence.
Qed.

Lemma store_set_keys (k : value) (d d2 : dict) (s : list (value * dict)) :
  store_get k s = Some d -> map fst (store_set k d2 s) = map fst s.
Proof.
  induction s as [|[k0 d0] s IH]; simpl; [discriminate|].
  destruct (py_eq k0 k); simpl; auto. intros H. now rewrite IH.
Qed.

Lemma store_get_set_same (k : value) (d2 : dict) (s : list (value * dict)) :
  hashable k = true -> store_get k (store_set k d2 s) = Some d2.
Proof.
  intros Hh. induction s as [|[k0 d0] s IH]; simpl.
  - now rewrite (py_eq_hashable_refl _ Hh).
  - destruct (py_eq k0 k) eqn:E; simpl; rewrite E; auto.
Qed.

Lemma store_get_set_other (k k' : value) (d2 : dict)
      (s : list (value * dict)) :
  hashable k = true -> k' <> k ->
  store_get k' (store_set k d2 s) = store_get k' s.
Proof.
  intros Hh Hne. induction s as [|[k0 d0] s IH]; simpl.
  - destruct (py_eq k k') eqn:E; auto.
    apply (py_eq_hashable_l _ _ Hh) in E. contradiction.
  - destruct (py_eq k0 k) eqn:E; simpl.
    + apply (py_eq_hashable _ _ Hh) in E. subst k0.
      destruct (py_eq k k') eqn:E'; auto.
      apply (py_eq_hashable_l _ _ Hh) in E'. contradiction.
    + now rewrite IH.
Qed.

Lemma find_one_in (c : MemoryCollection) (filt : filter) (d : dict) :
  find_one c filt = Some d ->
  exists k, In (k, d) (store c) /\ _match_filter d filt = true.
Proof.
  intros H. apply find_one_first in H.
  destruct H as (pre & post & H & Hm & _).
  assert (Hin : In d (map snd (store c))).
  { rewrite H. apply in_or_app. right. now left. }
  apply in_map_iff in Hin. destruct Hin as ([k d'] & Hd & Hin).
  simpl in Hd. subst d'. exists k. auto.
Qed.

Lemma apply_set_assoc (sets : dict) (d : dict) (f : string) :
  assoc f (apply_set sets d) = after_set sets d f.
Proof.
  unfold after_set. revert d.
  induction sets as [|[k v] sets IH]; intros d; simpl; auto.
  rewrite IH. unfold dict_set.
  destruct (assoc f (rev sets)) eqn:E.
  - now rewrite (assoc_app_some _ _ _ _ E).
  - rewrite (assoc_app_none _ _ _ E). simpl.
    destruct (String.eqb f k) eqn:Ek.
    + apply String.eqb_eq in Ek. subst. apply assoc_set_same.
    + apply String.eqb_neq in Ek. now apply assoc_set_other.
Qed.

Lemma apply_push_assoc (pushes : dict) :
  forall d1,
    pushable d1 pushes = true ->
    exists d2,
      apply_push pushes d1 = (d2, Ok tt) /\
      forall f,
        assoc f d2 =
        match pushed f pushes with
        | [] => assoc f d1
        | vs => Some (VList (seq_of (assoc f d1) ++ vs))
        end.
Proof.
  induction pushes as [|[k v] pushes IH]; intros d1 Hp.
  - exists d1. split; auto.
  - simpl in Hp. apply andb_prop in Hp. destruct Hp as [Hk Hp]. simpl.
    set (xs0 := seq_of (assoc k d1)).
    set (cur1 := match assoc k d1 with
                 | Some _ => d1
                 | None => dict_set k (VList []) d1
                 end).
    assert (Hcur : dict_get k cur1 = VList xs0).
    { unfold cur1, xs0, dict_get, dict_set.
      destruct (assoc k d1) as [x|] eqn:E.
      - rewrite E. destruct x; try discriminate. reflexivity.
      - now rewrite assoc_set_same. }
    assert (Hoth : forall f, f <> k -> assoc f cur1 = assoc f d1).
    { intros f Hf. unfold cur1, dict_set.
      destruct (assoc k d1); auto. now apply assoc_set_other. }
    rewrite Hcur.
    destruct (IH (dict_set k (VList (xs0 ++ [v])) cur1)) as (d2 & Hrun & Hd2).
    { unfold pushable in *. rewrite forallb_forall in *. intros kv Hkv.
      unfold dict_set. destruct (String.eqb (fst kv) k) eqn:Ek.
      - apply String.eqb_eq in Ek. rewrite Ek. now rewrite assoc_set_same.
      - apply String.eqb_neq in Ek. rewrite assoc_set_other by auto.
        rewrite Hoth by auto. now apply Hp. }
    exists d2. split; [exact Hrun|]. intros f. rewrite Hd2.
    unfold pushed. simpl. unfold dict_set.
    destruct (String.eqb f k) eqn:Ek; simpl.
    + apply String.eqb_eq in Ek. subst f. rewrite assoc_set_same. simpl.
      fold xs0.
      destruct (map snd (List.filter (fun kv => String.eqb k (fst kv)) pushes));
        auto.
      now rewrite <- app_assoc.
    + apply String.eqb_neq in Ek. rewrite assoc_set_other by auto.
      now rewrite Hoth.
Qed.

Lemma update_one_keyed (c : MemoryCollection) (filt : filter) (upd : update)
      (d : dict) :
  store_keyed (store c) = true ->
  find_one c filt = Some d ->
  exists k,
    assoc "_id" d = Some k /\ hashable k = true /\
    store_get k (store c) = Some d /\
    update_one c filt upd =
      (with_store c
         (store_set k (fst (apply_push (push_fields upd)
                                      (apply_set (set_fields upd) d)))
                    (store c)),
       snd (apply_push (push_fields upd) (apply_set (set_fields upd) d))).
Proof.
  intros Hk Hf. destruct (find_one_in _ _ _ Hf) as (k & Hin & _).
  destruct (store_keyed_in _ _ _ Hk Hin) as (Hid & Hh & Hget).
  exists k. repeat split; auto.
  unfold update_one. rewrite Hf.
  destruct d as [|kv d]; [discriminate|]. simpl is_empty_dict. cbv iota.
  rewrite Hid, Hh. simpl negb. cbv iota. rewrite Hget.
  unfold set_fields, push_fields.
  destruct (u_set upd), (u_push upd); simpl;
    try destruct (apply_push _ _); reflexivity.
Qed.


Lemma store_set_fresh (k k0 : value) (d2 : dict) (s : list (value * dict)) :
  py_eq k k0 = false ->
  existsb (fun kd => py_eq (fst kd) k0) s = false ->
  existsb (fun kd => py_eq (fst kd) k0) (store_set k d2 s) = false.
Proof.
  intros Hk. induction s as [|[k1 d1] s IH]; simpl.
  - now rewrite Hk.
  - intros H. apply orb_false_elim in H. destruct H as [H1 H2].
    destruct (py_eq k1 k); simpl; rewrite H1; auto.
Qed.

Lemma store_keyed_set (k : value) (d2 : dict) (s : list (value * dict)) :
  store_keyed s = true -> hashable k = true -> assoc "_id" d2 = Some k ->
  store_keyed (store_set k d2 s) = true.
Proof.
  intros Hs Hh Hid. induction s as [|[k0 d0] s IH]; simpl.
  - now rewrite Hh, Hid, (py_eq_hashable_refl _ Hh).
  - simpl in Hs. apply andb_prop in Hs. destruct Hs as [H Hs].
    apply andb_prop in H. destruct H as [H Hfresh].
    apply andb_prop in H. destruct H as [Hh0 Hid0].
    destruct (py_eq k0 k) eqn:E; simpl.
    + apply (py_eq_hashable _ _ Hh) in E. subst k0.
      now rewrite Hh, Hid, (py_eq_hashable_refl _ Hh), Hfresh, Hs.
    + rewrite Hh0, Hid0, (IH Hs). simpl.
      rewrite store_set_fresh; auto.
      * destruct (py_eq k k0) eqn:E'; auto.
        apply (py_eq_hashable_l _ _ Hh) in E'. subst k0.
        now rewrite (py_eq_hashable_refl _ Hh) in E.
      * now apply negb_true_iff in Hfresh.
Qed.

(** [insert_one] keeps the store filed by [_id]. *)
Lemma insert_one_keyed (c : MemoryCollection) (data : dict) :
  store_keyed (store c) = true ->
  store_keyed (store (fst (insert_one c data))) = true.
Proof.
  intros H. unfold insert_one. simpl.
  apply store_keyed_set; auto. unfold dict_set. apply assoc_set_same.
Qed.

(** ** Running the monad *)

Lemma bind_ok {A B : Type} (m : M A) (k : A -> M B) (w w' : world) (b : B) :
  bind m k w = (w', Ok b) ->
  exists a w1, m w = (w1, Ok a) /\ k a w1 = (w', Ok b).
Proof.
  unfold bind. destruct (m w) as [w1 [a|e]]; intros H.
  - exists a, w1. auto.
  - discriminate.
Qed.

Lemma lift_ok {A : Type} (r : result A) (w w' : world) (a : A) :
  lift r w = (w', Ok a) -> r = Ok a /\ w' = w.
Proof. unfold lift. intros H. inversion H. auto. Qed.

(** ** The route [advance_lead] *)

Section AdvanceProperties.

Variable ObjectId : value -> option string.
Variable py_repr : value -> string.
Variable utcnow : nat -> Z.
Variable send_json : observer -> value -> bool.

#[local] Abbreviation oid_of := (to_obj_id ObjectId).
#[local] Abbreviation str := (py_str py_repr).
#[local] Abbreviation advance :=
  (advance_lead ObjectId py_repr utcnow send_json).
#[local] Abbreviation entry := (history_entry py_repr).

Lemma find_project_run (lead : dict) (w : world) :
  find_project ObjectId lead w =
  (set_db (touch (w_db w) "project") w, resolve_project ObjectId (w_db w) lead).
Proof.
  unfold find_project, resolve_project, bind, db_getitem, lift,
    coll_find_one.
  destruct (negb (py_truthy (dict_get "project_id" lead))); simpl.
  - now rewrite peek_touch.
  - destruct (oid_of (dict_get "project_id" lead)); simpl; auto.
    now rewrite peek_touch.
Qed.

Lemma index_from_bound (x : value) (xs : list value) (i j : nat) :
  index_from x xs i = Some j -> i <= j < i + length xs.
Proof.
  revert i. induction xs as [|e xs IH]; simpl; intros i H; [discriminate|].
  destruct (py_eq e x).
  - inversion H. lia.
  - apply IH in H. lia.
Qed.

Lemma py_getitem_nth (xs : list value) (i : nat) :
  i < length xs ->
  exists v, nth_error xs i = Some v /\ py_getitem xs (Z.of_nat i) = Ok v.
Proof.
  intros H. unfold py_getitem.
  destruct (Z.of_nat i <? 0)%Z eqn:E; [lia|].
  assert (Hr : ((0 <=? Z.of_nat i) && (Z.of_nat i <? Z.of_nat (length xs)))%Z
               = true).
  { apply andb_true_intro. split; [apply Z.leb_le | apply Z.ltb_lt]; lia. }
  rewrite Hr, Nat2Z.id.
  destruct (nth_error xs i) as [v|] eqn:En.
  - exists v. auto.
  - apply nth_error_None in En. lia.
Qed.

Lemma py_getitem_last (xs : list value) :
  xs <> [] ->
  exists v, nth_error xs (length xs - 1) = Some v /\
            py_getitem xs (-1) = Ok v.
Proof.
  intros H. assert (Hl : 0 < length xs) by (destruct xs; simpl; [congruence|lia]).
  destruct (py_getitem_nth xs (length xs - 1)) as (v & Hn & _); [lia|].
  exists v. split; auto. unfold py_getitem.
  change (-1 <? 0)%Z with true. cbv beta iota zeta.
  assert (Hr : ((0 <=? -1 + Z.of_nat (length xs)) &&
                (-1 + Z.of_nat (length xs) <? Z.of_nat (length xs)))%Z = true).
  { apply andb_true_intro. split; [apply Z.leb_le | apply Z.ltb_lt]; lia. }
  rewrite Hr.
  replace (Z.to_nat (-1 + Z.of_nat (length xs))) with (length xs - 1) by lia.
  now rewrite Hn.
Qed.

(** What [next_step] returns, case by case. *)
Lemma next_step_cases (steps : list value) (current_step : value)
      (to_step : option string) :
  exists new_step,
    next_step steps current_step to_step = Ok new_step /\
    (py_truthy (payload_value to_step) && py_in (payload_value to_step) steps
       = true -> new_step = payload_value to_step) /\
    (py_truthy (payload_value to_step) && py_in (payload_value to_step) steps
       = false ->
     match index_from current_step steps 0 with
     | Some idx =>
         nth_error steps (Nat.min (idx + 1) (length steps - 1)) = Some new_step
     | None =>
         match steps with
         | [] => new_step = current_step
         | first :: _ => new_step = first
         end
     end).
Proof.
  unfold next_step.
  destruct (py_truthy (payload_value to_step) &&
            py_in (payload_value to_step) steps) eqn:E.
  - exists (payload_value to_step). repeat split; auto. discriminate.
  - unfold py_index.
    destruct (index_from current_step steps 0) as [idx|] eqn:Ei.
    + apply index_from_bound in Ei.
      destruct (py_getitem_nth steps (Nat.min (idx + 1) (length steps - 1)))
        as (v & Hn & Hg); [lia|].
      exists v.
      replace (Z.min (Z.of_nat idx + 1) (Z.of_nat (length steps) - 1))
        with (Z.of_nat (Nat.min (idx + 1) (length steps - 1))) by lia.
      rewrite Hg. repeat split; auto. discriminate.
    + destruct steps as [|first rest]; simpl.
      * exists current_step. repeat split; auto. discriminate.
      * exists first. repeat split; auto. discriminate.
Qed.

Lemma find_one_by_id (c : MemoryCollection) (k : value) :
  store_keyed (store c) = true ->
  find_one c [("_id", Literal k)] = store_get k (store c).
Proof.
  unfold find_one, find. induction (store c) as [|[k0 d0] s IH]; simpl; auto.
  intros H. apply andb_prop in H. destruct H as [H Hs].
  apply andb_prop in H. destruct H as [H Hfresh].
  apply andb_prop in H. destruct H as [Hh Hid].
  unfold dict_get. destruct (assoc "_id" d0) as [k'|]; [|discriminate].
  apply (py_eq_hashable _ _ Hh) in Hid. subst k'.
  destruct (py_eq k0 k); simpl; auto.
Qed.

Lemma oid_of_inv (v oid : value) :
  oid_of v = Ok oid -> exists hex, oid = VOid hex.
Proof.
  unfold to_obj_id. destruct (ObjectId v) as [hex|]; intros H; inversion H.
  now exists hex.
Qed.

Lemma advance_update_run (c : MemoryCollection) (oid : value)
      (lead project : dict) (lead_id : string)
      (current_step new_step status updated_at created_at : value) :
  store_keyed (store c) = true ->
  (exists hex, oid = VOid hex) ->
  find_one c [("_id", Literal oid)] = Some lead ->
  pushable lead [("history", VNone)] = true ->
  exists c' lead',
    update_one c [("_id", Literal oid)]
               (advance_update py_repr project lead_id current_step new_step
                               status updated_at created_at) = (c', Ok tt) /\
    store_keyed (store c') = true /\
    find_one c' [("_id", Literal oid)] = Some lead' /\
    map fst (store c') = map fst (store c) /\
    (forall k, k <> oid -> store_get k (store c') = store_get k (store c)) /\
    advanced_from lead lead' new_step status updated_at
                  (entry project lead_id current_step new_step created_at).
Proof.
  intros Hk (hex & ->) Hlead Hpush.
  set (upd := advance_update py_repr project lead_id current_step new_step
                             status updated_at created_at).
  destruct (update_one_keyed c [("_id", Literal (VOid hex))] upd lead Hk Hlead)
    as (k & Hid & Hh & Hget & Hrun).
  assert (Hkey : k = VOid hex).
  { destruct (find_one_in _ _ _ Hlead) as (k' & _ & Hm). simpl in Hm.
    unfold dict_get in Hm. rewrite Hid in Hm.
    destruct (py_eq k (VOid hex)) eqn:E; [|discriminate].
    now apply py_eq_VOid_r. }
  subst k.
  assert (Hp : pushable (apply_set (set_fields upd) lead) (push_fields upd)
               = true).
  { simpl. simpl in Hpush. unfold dict_set.
    rewrite !assoc_set_other by discriminate. exact Hpush. }
  destruct (apply_push_assoc _ _ Hp) as (d2 & Hpushed & Hd2).
  rewrite Hpushed in Hrun. simpl fst in Hrun. simpl snd in Hrun.
  assert (Hfields : advanced_from lead d2 new_step status updated_at
                      (entry project lead_id current_step new_step created_at)).
  { unfold advanced_from. repeat split.
    - rewrite Hd2, apply_set_assoc. reflexivity.
    - rewrite Hd2, apply_set_assoc. reflexivity.
    - rewrite Hd2, apply_set_assoc. reflexivity.
    - rewrite Hd2, apply_set_assoc. reflexivity.
    - intros f H1 H2 H3 H4. rewrite Hd2, apply_set_assoc.
      unfold pushed, after_set. simpl.
      apply String.eqb_neq in H1, H2, H3, H4.
      now rewrite H1, H2, H3, H4. }
  assert (Hid2 : assoc "_id" d2 = Some (VOid hex)).
  { destruct Hfields as (_ & _ & _ & _ & Hoth).
    rewrite Hoth by discriminate. exact Hid. }
  exists (with_store c (store_set (VOid hex) d2 (store c))), d2.
  split; [exact Hrun|]. split; [now apply store_keyed_set|].
  split.
  { rewrite find_one_by_id by (simpl; now apply store_keyed_set).
    simpl. now apply store_get_set_same. }
  split; [simpl; now apply store_set_keys with (d := lead)|].
  split; [|exact Hfields].
  intros k Hne. simpl. now apply store_get_set_other.
Qed.

Lemma advance_lead_total (w : world) (lead_id : string)
      (to_step : option string) (oid : value) (lead project : dict)
      (steps : list value) :
  can_advance ObjectId w lead_id oid lead project steps ->
  exists new_step last w' u lead',
    next_step steps (dict_get "current_step" lead) to_step = Ok new_step /\
    py_getitem steps (-1) = Ok last /\
    advance lead_id to_step w = (w', Ok u) /\
    can_advance ObjectId w' lead_id oid lead' project steps /\
    advanced_from lead lead' new_step
      (if py_eq new_step last then VStr "won"
       else dict_get_default "status" (VStr "active") lead)
      (VTime (utcnow (w_clock w)))
      (entry project lead_id (dict_get "current_step" lead) new_step
             (VTime (utcnow (S (w_clock w))))) /\
    (forall n, n <> "lead" -> peek (w_db w') n = peek (w_db w) n) /\
    map fst (store (peek (w_db w') "lead")) =
      map fst (store (peek (w_db w) "lead")) /\
    (forall k, k <> oid ->
               store_get k (store (peek (w_db w') "lead")) =
               store_get k (store (peek (w_db w) "lead"))) /\
    w_clock w' = S (S (w_clock w)) /\
    w_sent w' =
      w_sent w ++
      map (fun x => (x, lead_advanced lead_id (dict_get "current_step" lead)
                                      new_step,
                     send_json x (lead_advanced lead_id
                                    (dict_get "current_step" lead) new_step)))
          (observers (w_manager w) (str (dict_get "_id" project))) /\
    u = dict_set "id" (VStr (str oid)) (dict_remove "_id" lead').
Proof.
  intros (Hoid & Hk & Hlead & Hproj & Hne & Hsteps & Hst & Hpush).
  destruct w as [db mgr clk sent].
  cbn [w_db w_manager w_clock w_sent] in *.
  destruct (next_step_cases steps (dict_get "current_step" lead) to_step)
    as (new_step & Hnew & _).
  destruct (py_getitem_last steps) as (last & _ & Hlast).
  { destruct steps; [discriminate|congruence]. }
  assert (Hnel : is_empty_dict lead = false).
  { destruct (find_one_in _ _ _ Hlead) as (k & Hin & _).
    destruct (store_keyed_in _ _ _ Hk Hin) as (Hid & _).
    destruct lead; [discriminate|reflexivity]. }
  assert (Hstat : next_status lead steps new_step =
                  Ok (if py_eq new_step last then VStr "won"
                      else dict_get_default "status" (VStr "active") lead)).
  { unfold next_status. now rewrite Hlast. }
  assert (Hproj' : resolve_project ObjectId (touch db "lead") lead =
                   Ok (Some project)).
  { unfold resolve_project in *. now rewrite !peek_touch. }
  set (status := if py_eq new_step last then VStr "won"
                 else dict_get_default "status" (VStr "active") lead) in *.
  set (current_step := dict_get "current_step" lead) in *.
  destruct (advance_update_run (peek db "lead") oid lead project lead_id
              current_step new_step status (VTime (utcnow clk))
              (VTime (utcnow (S clk))) Hk (oid_of_inv _ _ Hoid) Hlead Hpush)
    as (c' & lead' & Hupd & Hk' & Hlead' & Hkeys & Hoth & Hfields).
  set (db1 := put (touch (touch (touch db "lead") "project") "lead") "lead" c').
  set (message := lead_advanced lead_id current_step new_step).
  destruct (broadcast_loop_spec send_json
              (str (dict_get "_id" project)) message
              (observers mgr (str (dict_get "_id" project)))
              (mkWorld db1 mgr (S (S clk)) sent))
    as (w2 & Hrun & _ & _ & Hsent & Hdb & Hclk); [auto|].
  cbn [w_db w_manager w_clock w_sent] in *.
  assert (Hpeek : peek (touch (w_db w2) "lead") "lead" = c').
  { rewrite peek_touch, Hdb. apply peek_put_same. }
  assert (Hid' : assoc "_id" lead' = Some oid).
  { destruct (find_one_in _ _ _ Hlead') as (k & Hin & _).
    destruct (store_keyed_in _ _ _ Hk' Hin) as (Hid & _ & Hget).
    rewrite find_one_by_id in Hlead' by exact Hk'.
    destruct (oid_of_inv _ _ Hoid) as (hex & ->).
    destruct (find_one_in c' [("_id", Literal (VOid hex))] lead')
      as (k' & _ & Hm).
    { now rewrite find_one_by_id. }
    simpl in Hm. unfold dict_get in Hm. rewrite Hid in Hm.
    destruct (py_eq k (VOid hex)) eqn:E; [|discriminate].
    apply py_eq_VOid_r in E. now subst. }
  exists new_step, last, (set_db (touch (w_db w2) "lead") w2),
    (dict_set "id" (VStr (str oid)) (dict_remove "_id" lead')), lead'.
  split; [exact Hnew|]. split; [exact Hlast|]. split.
  { unfold advance_lead.
    unfold bind at 1. unfold db_getitem at 1.
    unfold bind at 1. rewrite Hoid. unfold lift at 1.
    unfold bind at 1. unfold coll_find_one at 1.
    cbn [set_db w_db w_manager w_clock w_sent].
    rewrite peek_touch, Hlead. unfold found at 1. rewrite Hnel.
    unfold bind at 1. rewrite find_project_run.
    cbn [set_db w_db w_manager w_clock w_sent].
    rewrite Hproj'. unfold found at 1. rewrite Hne.
    unfold bind at 1. rewrite Hsteps. unfold lift at 1.
    simpl as_steps. cbv iota.
    unfold bind at 1. fold current_step. rewrite Hnew. unfold lift at 1.
    unfold bind at 1. rewrite Hstat. unfold lift at 1.
    unfold bind at 1. unfold db_getitem at 1.
    unfold bind at 1. unfold lift at 1.
    unfold bind at 1. unfold datetime_now at 1.
    unfold bind at 1. unfold datetime_now at 1.
    cbn [set_db w_db w_manager w_clock w_sent].
    unfold bind at 1. unfold coll_update_one at 1.
    cbn [set_db w_db w_manager w_clock w_sent].
    rewrite !peek_touch. rewrite Hupd.
    cbn [set_db w_db w_manager w_clock w_sent].
    fold db1. fold message.
    unfold bind at 1. unfold broadcast at 1.
    cbn [set_db w_db w_manager w_clock w_sent].
    change (set_db db1 _) with (mkWorld db1 mgr (S (S clk)) sent).
    rewrite Hrun.
    unfold bind at 1. unfold db_getitem at 1.
    unfold bind at 1. unfold lift at 1.
    unfold bind at 1. unfold coll_find_one at 1.
    cbn [set_db w_db w_manager w_clock w_sent].
    rewrite Hpeek, Hlead', Hid'. reflexivity. }
  cbn [set_db w_db w_manager w_clock w_sent].
  rewrite Hpeek.
  assert (Hother : forall n, n <> "lead" ->
                     peek (touch (w_db w2) "lead") n = peek db n).
  { intros n Hn. rewrite peek_touch, Hdb. unfold db1.
    rewrite peek_put_other by exact Hn. now rewrite !peek_touch. }
  split.
  { unfold can_advance. cbn [set_db w_db w_manager w_clock w_sent].
    rewrite Hpeek. repeat split; auto.
    - destruct Hfields as (_ & _ & _ & _ & Hsame).
      unfold resolve_project in *. unfold dict_get in *.
      rewrite Hsame by discriminate.
      rewrite (Hother "project") by discriminate. exact Hproj.
    - destruct Hfields as (_ & _ & _ & Hhist & _).
      simpl. now rewrite Hhist. }
  split; [exact Hfields|]. split; [exact Hother|].
  split; [exact Hkeys|]. split; [exact Hoth|].
  split; [exact Hclk|]. split; [exact Hsent|]. reflexivity.
Qed.

Lemma resolve_project_touch (db : MemoryDB) (n : string) (lead : dict) :
  resolve_project ObjectId (touch db n) lead = resolve_project ObjectId db lead.
Proof. unfold resolve_project. now rewrite !peek_touch. Qed.

Lemma quiet_touch (w : world) (ns : list string) :
  quiet w (set_db (fold_left touch ns (w_db w)) w).
Proof.
  unfold quiet. simpl. repeat split; auto. intros n.
  revert w. induction ns as [|m ns IH]; intros w; simpl; auto.
  specialize (IH (set_db (touch (w_db w) m) w)). simpl in IH.
  rewrite IH. apply peek_touch.
Qed.

Lemma found_some (x : option dict) (d : dict) :
  found x = Some d <-> x = Some d /\ is_empty_dict d = false.
Proof.
  unfold found. destruct x as [d'|]; [|split; [discriminate|now intros []]].
  destruct (is_empty_dict d') eqn:E.
  - split; [discriminate|]. intros [H H']. inversion H; subst. congruence.
  - split.
    + intros H. inversion H; subst. auto.
    + now intros [H _].
Qed.

(** Unfold the route and rewrite with the lookups known in the context. *)
Ltac run_route :=
  unfold advance_lead, bind, db_getitem, lift, coll_find_one, raise,
    coll_update_one, datetime_now;
  cbn [set_db w_db w_manager w_clock w_sent];
  repeat (rewrite ?peek_touch, ?find_project_run, ?resolve_project_touch;
          cbn [set_db w_db w_manager w_clock w_sent];
          repeat match goal with
                 | H : forall _, _ = _ |- _ => rewrite H
                 | H : ?l = _ |- context [?l] => rewrite H
                 end).

(** How [advance_lead] ends when it stops before writing. *)
Lemma advance_lead_early (w : world) (lead_id : string)
      (to_step : option string) :
  match stored_lead ObjectId (w_db w) lead_id with
  | Raise e =>
      advance lead_id to_step w =
      (set_db (fold_left touch ["lead"] (w_db w)) w, Raise e)
  | Ok None =>
      advance lead_id to_step w =
      (set_db (fold_left touch ["lead"] (w_db w)) w,
       Raise (HTTPException 404 "Lead not found"))
  | Ok (Some lead) =>
      match project_of ObjectId (w_db w) lead with
      | Raise e =>
          advance lead_id to_step w =
          (set_db (fold_left touch ["lead"; "project"] (w_db w)) w, Raise e)
      | Ok None =>
          advance lead_id to_step w =
          (set_db (fold_left touch ["lead"; "project"] (w_db w)) w,
           Raise (HTTPException 400 "Project not found for lead"))
      | Ok (Some project) =>
          match as_steps (dict_get_default "steps" (VList []) project) with
          | Ok [] =>
              advance lead_id to_step w =
              (set_db (fold_left touch ["lead"; "project"] (w_db w)) w,
               Raise IndexError)
          | Ok (_ :: _) => True
          | Raise e =>
              advance lead_id to_step w =
              (set_db (fold_left touch ["lead"; "project"] (w_db w)) w,
               Raise e)
          end
      end
  end.
Proof.
  destruct w as [db mgr clk sent]. unfold stored_lead, project_of.
  cbn [w_db w_manager w_clock w_sent fold_left].
  assert (Hnew : forall cur, next_step [] cur to_step = Ok cur).
  { intros cur. unfold next_step, py_in. simpl. now rewrite andb_false_r. }
  destruct (oid_of (VStr lead_id)) as [oid|e] eqn:Hoid;
    [destruct (found (find_one (peek db "lead") [("_id", Literal oid)]))
       as [lead|] eqn:Hlead;
     [destruct (resolve_project ObjectId db lead) as [p|e] eqn:Hproj;
      [destruct (found p) as [project|] eqn:Hp;
       [destruct (as_steps (dict_get_default "steps" (VList []) project))
          as [[|s steps]|e] eqn:Hsteps; [|exact I|] | ] | ] | ] | ];
    run_route; reflexivity.
Qed.



Lemma assoc_remove_other (k f : string) (d : dict) :
  f <> k -> assoc f (dict_remove k d) = assoc f d.
Proof.
  intros Hne. induction d as [|[k' v'] d IH]; simpl; auto.
  destruct (String.eqb k k') eqn:E; simpl.
  - apply String.eqb_eq in E. subst k'.
    destruct (String.eqb f k) eqn:E'; auto.
    apply String.eqb_eq in E'. contradiction.
  - now rewrite IH.
Qed.

(** C1 (amended).  An advance against a project with non-empty steps
    succeeds and leaves the lead on: the requested step, when a non-empty
    requested step is given and occurs in the steps; otherwise (no request,
    an empty one, or one that is no step) the step right after the first
    position of the current step, the last step when that position is the
    last one, and the first step when the current step does not occur. *)
Theorem advance_moves_to_requested_or_next_step
        (w : world) (lead_id : string) (to_step : option string)
        (oid : value) (lead project : dict) (steps : list value) :
  can_advance ObjectId w lead_id oid lead project steps ->
  exists w' u lead' new_step,
    advance lead_id to_step w = (w', Ok u) /\
    find_one (peek (w_db w') "lead") [("_id", Literal oid)] = Some lead' /\
    assoc "current_step" lead' = Some new_step /\
    assoc "current_step" u = Some new_step /\
    (forall r, to_step = Some r -> r <> "" -> py_in (VStr r) steps = true ->
               new_step = VStr r) /\
    (to_step = None \/ to_step = Some "" \/
     (exists r, to_step = Some r /\ py_in (VStr r) steps = false) ->
     match index_from (dict_get "current_step" lead) steps 0 with
     | Some idx =>
         nth_error steps (Nat.min (idx + 1) (length steps - 1)) = Some new_step /\
         (idx + 1 < length steps -> nth_error steps (idx + 1) = Some new_step) /\
         (idx + 1 = length steps -> nth_error steps idx = Some new_step)
     | None => nth_error steps 0 = Some new_step
     end).
Proof.
  intros Hcan.
  destruct (advance_lead_total w lead_id to_step oid lead project steps Hcan)
    as (new_step & last & w' & u & lead' & Hnew & Hlast & Hrun & Hcan' &
        Hfields & _ & _ & _ & _ & _ & Hu).
  destruct Hcan' as (_ & _ & Hlead' & _).
  destruct Hfields as (Hcur & _).
  destruct Hcan as (_ & _ & _ & _ & _ & _ & Hst & _).
  destruct (next_step_cases steps (dict_get "current_step" lead) to_step)
    as (new_step' & Hnew' & Hreq & Hnext).
  assert (new_step' = new_step) by congruence. subst new_step'.
  exists w', u, lead', new_step.
  split; [exact Hrun|]. split; [exact Hlead'|]. split; [exact Hcur|].
  split.
  { subst u. unfold dict_set. rewrite assoc_set_other by discriminate.
    now rewrite assoc_remove_other by discriminate. }
  split.
  - intros r -> Hr Hin. apply Hreq. simpl. rewrite Hin.
    apply String.eqb_neq in Hr. now rewrite Hr.
  - intros Hno.
    assert (Hcond : py_truthy (payload_value to_step) &&
                    py_in (payload_value to_step) steps = false).
    { destruct Hno as [->|[->|(r & -> & Hin)]]; simpl; auto.
      rewrite Hin. apply andb_false_r. }
    specialize (Hnext Hcond).
    destruct (index_from (dict_get "current_step" lead) steps 0) as [idx|].
    + split; [exact Hnext|]. split; intros Hi.
      * now replace (Nat.min (idx + 1) (length steps - 1)) with (idx + 1)
          in Hnext by lia.
      * now replace (Nat.min (idx + 1) (length steps - 1)) with idx
          in Hnext by lia.
    + destruct steps; [discriminate|]. simpl. now subst.
Qed.

(** C2 (amended).  An advance against non-empty steps writes status "won"
    when the step it moves to equals the last step and leaves the status as
    it was otherwise (["active"] when the lead had none).  So "won exactly
    when on the last step", when it held before, holds after every advance
    that does not take a lead standing on the last step away from it. *)
Theorem advance_sets_won_on_last_step
        (w : world) (lead_id : string) (to_step : option string)
        (oid : value) (lead project : dict) (steps : list value) :
  can_advance ObjectId w lead_id oid lead project steps ->
  exists w' u lead' new_step last,
    advance lead_id to_step w = (w', Ok u) /\
    find_one (peek (w_db w') "lead") [("_id", Literal oid)] = Some lead' /\
    nth_error steps (length steps - 1) = Some last /\
    assoc "current_step" lead' = Some new_step /\
    assoc "status" lead' =
      Some (if py_eq new_step last then VStr "won"
            else dict_get_default "status" (VStr "active") lead) /\
    (won_iff_last last lead = true ->
     (py_eq (dict_get "current_step" lead) last = true ->
      py_eq new_step last = true) ->
     won_iff_last last lead' = true).
Proof.
  intros Hcan.
  destruct (advance_lead_total w lead_id to_step oid lead project steps Hcan)
    as (new_step & last & w' & u & lead' & Hnew & Hlast & Hrun & Hcan' &
        Hfields & _).
  destruct Hcan' as (_ & _ & Hlead' & _).
  destruct Hfields as (Hcur & Hstatus & _).
  destruct Hcan as (_ & _ & _ & _ & _ & _ & Hst & _).
  destruct (py_getitem_last steps) as (last' & Hnth & Hlast').
  { destruct steps; [discriminate|congruence]. }
  assert (last' = last) by congruence. subst last'.
  exists w', u, lead', new_step, last.
  repeat (split; [assumption|]).
  intros Hinv Hstay. unfold won_iff_last in *. unfold dict_get in *.
  rewrite Hcur, Hstatus. apply Bool.eqb_prop in Hinv.
  destruct (py_eq new_step last) eqn:E; [reflexivity|].
  unfold dict_get_default.
  destruct (py_eq match assoc "current_step" lead with
                  | Some v => v
                  | None => VNone
                  end last) eqn:Ec.
  - specialize (Hstay eq_refl). discriminate.
  - destruct (assoc "status" lead) as [s|]; [now rewrite Hinv | reflexivity].
Qed.




(** C7.  With no step in the project, [next_step] keeps the current step,
    but the route then reads [steps[-1]] to compare it with: the advance
    raises [IndexError] and writes nothing. *)
Theorem advance_on_empty_steps_raises
        (w : world) (lead_id : string) (to_step : option string)
        (lead project : dict) :
  stored_lead ObjectId (w_db w) lead_id = Ok (Some lead) ->
  project_of ObjectId (w_db w) lead = Ok (Some project) ->
  dict_get_default "steps" (VList []) project = VList [] ->
  next_step [] (dict_get "current_step" lead) to_step =
    Ok (dict_get "current_step" lead) /\
  exists w',
    advance lead_id to_step w = (w', Raise IndexError) /\ quiet w w'.
Proof.
  intros Hlead Hproj Hsteps. split.
  - unfold next_step, py_in. simpl. now rewrite andb_false_r.
  - pose proof (advance_lead_early w lead_id to_step) as He.
    rewrite Hlead, Hproj, Hsteps in He. simpl in He.
    eexists. split; [exact He|].
    apply (quiet_touch w ["lead"; "project"]).
Qed.

(** C8 (amended).  When the lead id names no lead, or the project lookup of
    the route finds no project for the lead — by the lead's [project_id]
    when it has one, by the name "Leadflow Demo" when it has none — the
    advance raises an [HTTPException], no document of any collection is
    changed, the registry is unchanged and nothing is sent. *)
Theorem advance_fails_without_lead_or_project
        (w : world) (lead_id : string) (to_step : option string) :
  (forall lead project,
      stored_lead ObjectId (w_db w) lead_id = Ok (Some lead) ->
      project_of ObjectId (w_db w) lead = Ok (Some project) -> False) ->
  exists w' status_code detail,
    advance lead_id to_step w =
      (w', Raise (HTTPException status_code detail)) /\
    quiet w w'.
Proof.
  intros Hnone.
  pose proof (advance_lead_early w lead_id to_step) as He.
  destruct (stored_lead ObjectId (w_db w) lead_id) as [[lead|]|e] eqn:Hlead.
  - destruct (project_of ObjectId (w_db w) lead) as [[project|]|e] eqn:Hproj.
    + exfalso. eapply Hnone; eauto.
    + do 3 eexists. split; [exact He|].
      apply (quiet_touch w ["lead"; "project"]).
    + assert (exists c d, e = HTTPException c d) as (c & d & ->).
      { unfold project_of, resolve_project, to_obj_id in Hproj.
        destruct (negb (py_truthy (dict_get "project_id" lead)));
          [discriminate|].
        destruct (ObjectId (dict_get "project_id" lead)); [discriminate|].
        inversion Hproj. eauto. }
      do 3 eexists. split; [exact He|].
      apply (quiet_touch w ["lead"; "project"]).
  - do 3 eexists. split; [exact He|]. apply (quiet_touch w ["lead"]).
  - assert (exists c d, e = HTTPException c d) as (c & d & ->).
    { unfold stored_lead, to_obj_id in Hlead.
      destruct (ObjectId (VStr lead_id)); [discriminate|].
      inversion Hlead. eauto. }
    do 3 eexists. split; [exact He|]. apply (quiet_touch w ["lead"]).
Qed.

End AdvanceProperties.

(** ** The properties on the demo database *)

(** The hypothesis [can_advance] on a demo world, by evaluation. *)
Ltac demo_can_advance := unfold can_advance; repeat split; reflexivity.

Lemma advance_moves_witness :
  exists w' u,
    demo_advance demo_lead_id None
                 (demo_world (demo_project abc)
                             (demo_lead demo_project_id "A" "new")) =
      (w', Ok u) /\
    assoc "current_step" u = Some (VStr "B").
Proof.
  destruct (advance_moves_to_requested_or_next_step
              demo_ObjectId demo_repr demo_utcnow demo_send_json
              (demo_world (demo_project abc)
                          (demo_lead demo_project_id "A" "new"))
              demo_lead_id None (VOid demo_lead_id)
              (demo_lead demo_project_id "A" "new") (demo_project abc) abc)
    as (w' & u & lead' & new_step & Hrun & _ & _ & Hu & _ & Hnext).
  { demo_can_advance. }
  exists w', u. split; [exact Hrun|]. rewrite Hu.
  specialize (Hnext (or_introl eq_refl)). vm_compute in Hnext.
  destruct Hnext as (H & _ & _). now inversion H.
Defined.

(** C1, counterexample.  The empty string is a step of the project and is
    requested, yet the lead moves to the step after its current one. *)
Lemma requested_empty_step_is_not_taken :
  let steps := [VStr ""; VStr "B"] in
  let w := demo_world (demo_project steps) (demo_lead demo_project_id "" "new") in
  py_in (VStr "") steps = true /\
  exists w' u lead',
    demo_advance demo_lead_id (Some "") w = (w', Ok u) /\
    find_one (peek (w_db w') "lead") [("_id", Literal (VOid demo_lead_id))] =
      Some lead' /\
    assoc "current_step" lead' = Some (VStr "B").
Proof.
  split; [reflexivity|]. do 3 eexists.
  split; [lazy; reflexivity|]. split; lazy; reflexivity.
Qed.

Lemma advance_sets_won_witness :
  exists w' u,
    demo_advance demo_lead_id None
                 (demo_world (demo_project abc)
                             (demo_lead demo_project_id "B" "active")) =
      (w', Ok u) /\
    exists lead',
      find_one (peek (w_db w') "lead") [("_id", Literal (VOid demo_lead_id))]
        = Some lead' /\
      assoc "status" lead' = Some (VStr "won") /\
      won_iff_last (VStr "C") lead' = true.
Proof.
  destruct (advance_sets_won_on_last_step
              demo_ObjectId demo_repr demo_utcnow demo_send_json
              (demo_world (demo_project abc)
                          (demo_lead demo_project_id "B" "active"))
              demo_lead_id None (VOid demo_lead_id)
              (demo_lead demo_project_id "B" "active") (demo_project abc) abc)
    as (w' & u & lead' & new_step & last & Hrun & Hlead' & Hlast & Hcur &
        Hstatus & Hinv).
  { demo_can_advance. }
  exists w', u. split; [exact Hrun|]. exists lead'.
  split; [exact Hlead'|].
  assert (Hl : last = VStr "C") by (vm_compute in Hlast; congruence).
  subst last.
  assert (Hn : new_step = VStr "C").
  { vm_compute in Hrun. inversion Hrun; subst.
    vm_compute in Hlead'. inversion Hlead'; subst.
    vm_compute in Hcur. congruence. }
  subst new_step. split; [exact Hstatus|].
  apply Hinv; reflexivity.
Defined.

(** C2, counterexample.  A won lead on the last step is moved back to the
    first step by an explicit request: its status stays "won". *)
Lemma backward_advance_keeps_won :
  let lead := demo_lead demo_project_id "C" "won" in
  let w := demo_world (demo_project abc) lead in
  won_iff_last (VStr "C") lead = true /\
  exists w' u lead',
    demo_advance demo_lead_id (Some "A") w = (w', Ok u) /\
    find_one (peek (w_db w') "lead") [("_id", Literal (VOid demo_lead_id))] =
      Some lead' /\
    assoc "current_step" lead' = Some (VStr "A") /\
    assoc "status" lead' = Some (VStr "won") /\
    won_iff_last (VStr "C") lead' = false.
Proof.
  split; [reflexivity|]. do 3 eexists.
  split; [lazy; reflexivity|]. repeat split; lazy; reflexivity.
Qed.



Lemma advance_on_empty_steps_witness :
  exists w',
    demo_advance demo_lead_id None
                 (demo_world (demo_project [])
                             (demo_lead demo_project_id "A" "new")) =
      (w', Raise IndexError) /\
    quiet (demo_world (demo_project []) (demo_lead demo_project_id "A" "new"))
          w'.
Proof.
  destruct (advance_on_empty_steps_raises
              demo_ObjectId demo_repr demo_utcnow demo_send_json
              (demo_world (demo_project [])
                          (demo_lead demo_project_id "A" "new"))
              demo_lead_id None
              (demo_lead demo_project_id "A" "new") (demo_project []))
    as [_ H]; [reflexivity | reflexivity | reflexivity | exact H].
Defined.

Lemma advance_fails_witness :
  exists w' status_code detail,
    demo_advance "cccccccccccccccccccccccc" None
                 (demo_world (demo_project abc)
                             (demo_lead demo_project_id "A" "new")) =
      (w', Raise (HTTPException status_code detail)) /\
    quiet (demo_world (demo_project abc) (demo_lead demo_project_id "A" "new"))
          w'.
Proof.
  apply (advance_fails_without_lead_or_project
           demo_ObjectId demo_repr demo_utcnow demo_send_json).
  intros lead project H. vm_compute in H. discriminate.
Defined.

(** C8, counterexample.  The lead's [project_id] is the empty string, which
    is the id of no project; the route takes the project named "Leadflow
    Demo" instead, writes the lead and notifies the observers. *)
Lemma lead_without_project_id_is_advanced :
  let lead := demo_lead "" "A" "new" in
  let w := demo_world (demo_project abc) lead in
  stored_lead demo_ObjectId (w_db w) demo_lead_id = Ok (Some lead) /\
  to_obj_id demo_ObjectId (dict_get "project_id" lead) =
    Raise (HTTPException 400 "Invalid ID format") /\
  find_one (peek (w_db w) "project")
           [("_id", Literal (dict_get "project_id" lead))] = None /\
  exists w' u lead',
    demo_advance demo_lead_id None w = (w', Ok u) /\
    find_one (peek (w_db w') "lead") [("_id", Literal (VOid demo_lead_id))] =
      Some lead' /\
    assoc "current_step" lead' = Some (VStr "B") /\
    length (seq_of (assoc "history" lead')) =
      S (length (seq_of (assoc "history" lead))) /\
    length (w_sent w') = 3.
Proof.
  split; [reflexivity|]. split; [reflexivity|]. split; [reflexivity|].
  do 3 eexists. split; [lazy; reflexivity|]. repeat split; lazy; reflexivity.
Qed.


(** ** Copies handed out by [find] *)

(** Seen through [view], the heap model of [find] is [find]. *)
Lemma shared_find_view (h : Shared.heap) (n : string) (a : nat)
      (s : list (value * Shared.document)) (filt : filter) :
  map (Shared.view h) (Shared.find h s filt) =
  find (mkCollection n (Shared.view_store h s) a) filt.
Proof.
  unfold Shared.find, find, Shared.view_store. simpl.
  induction s as [|[k d] s IH]; simpl; auto.
  destruct (_match_filter (Shared.view h d) filt); simpl; now rewrite IH.
Qed.

(** C6.  A document returned by [find_one] holds the very list objects of
    the stored document: after the caller appends to the [history] of its
    copy, the same [find_one] returns a different history.  Rebinding a
    field of the copy leaves the store alone. *)
Theorem returned_copy_shares_nested_lists :
  let filt := [("_id", Literal (VStr "mem_lead_1"))] in
  exists copy,
    Shared.find_one shared_heap shared_store filt = Some copy /\
    let h' := Shared.item_append shared_heap copy "history" (VStr "junk") in
    option_map (Shared.view shared_heap)
               (Shared.find_one shared_heap shared_store filt) =
      Some [("_id", VStr "mem_lead_1"); ("status", VStr "new");
            ("history", VList [VStr "created"])] /\
    option_map (Shared.view h') (Shared.find_one h' shared_store filt) =
      Some [("_id", VStr "mem_lead_1"); ("status", VStr "new");
            ("history", VList [VStr "created"; VStr "junk"])] /\
    Shared.item_set copy "status" (VStr "lost") <> copy /\
    Shared.view_store h' shared_store <>
      Shared.view_store shared_heap shared_store.
Proof.
  eexists. split; [reflexivity|]. simpl.
  repeat split; try reflexivity; discriminate.
Qed.

(** * Further properties of the store and of the routes *)

(** ** Identifiers handed out by [insert_one] *)





(** X1.  On a store filed by [_id], looking up the id [insert_one] returned
    finds the inserted data, with [_id] set to that id whatever [_id] the
    data carried; the id is built from the incremented counter. *)
Theorem insert_one_then_find_one (c : MemoryCollection) (data : dict) :
  store_keyed (store c) = true ->
  let c' := fst (insert_one c data) in
  let _id := snd (insert_one c data) in
  _id = generated_id (name c) (S (_auto c)) /\
  _auto c' = S (_auto c) /\
  find_one c' [("_id", Literal (VStr _id))] =
    Some (dict_set "_id" (VStr _id) data) /\
  assoc "_id" (dict_set "_id" (VStr _id) data) = Some (VStr _id) /\
  (forall f, f <> "_id" ->
             assoc f (dict_set "_id" (VStr _id) data) = assoc f data) /\
  store_keyed (store c') = true.
Proof.
  intros Hk. cbv zeta. split; [reflexivity|]. split; [reflexivity|].
  split.
  { rewrite find_one_by_id by now apply insert_one_keyed.
    simpl. now apply store_get_set_same. }
  split; [apply assoc_set_same|].
  split; [intros f Hf; now apply assoc_set_other|].
  now apply insert_one_keyed.
Qed.

Lemma insert_one_witness :
  find_one (fst (insert_one demo_collection [("name", VStr "Noah")]))
           [("_id", Literal (VStr "mem_lead_3"))] =
  Some [("name", VStr "Noah"); ("_id", VStr "mem_lead_3")].
Proof.
  destruct (insert_one_then_find_one demo_collection [("name", VStr "Noah")])
    as (_ & _ & H & _); [reflexivity|exact H].
Defined.



(** ** Failing and partial updates *)

Lemma forallb_false {A : Type} (f : A -> bool) (l : list A) :
  forallb f l = false <-> exists x, In x l /\ f x = false.
Proof.
  induction l as [|a l IH]; simpl.
  - split; [discriminate|]. now intros (x & [] & _).
  - destruct (f a) eqn:E; simpl.
    + rewrite IH. split.
      * intros (x & Hx & Hf). exists x. auto.
      * intros (x & [Hx|Hx] & Hf); [subst; congruence|]. exists x. auto.
    + split; auto. intros _. exists a. auto.
Qed.

Lemma apply_push_not_pushable (pushes : dict) :
  forall d, pushable d pushes = false ->
            snd (apply_push pushes d) = Raise AttributeError.
Proof.
  induction pushes as [|[k v] pushes IH]; intros d Hp; [discriminate|].
  simpl in Hp. simpl.
  destruct (assoc k d) as [x|] eqn:E.
  - unfold dict_get. rewrite E.
    destruct x; try reflexivity.
    simpl in Hp. apply IH. unfold pushable in *.
    apply forallb_false in Hp. apply forallb_false.
    destruct Hp as (kv & Hin & Hbad). exists kv. split; auto.
    unfold dict_set. destruct (String.eqb (fst kv) k) eqn:Ek.
    + apply String.eqb_eq in Ek. rewrite Ek, E in Hbad. discriminate.
    + apply String.eqb_neq in Ek. now rewrite assoc_set_other.
  - unfold dict_get, dict_set. rewrite assoc_set_same.
    simpl in Hp. apply IH. unfold pushable in *.
    apply forallb_false in Hp. apply forallb_false.
    destruct Hp as (kv & Hin & Hbad). exists kv. split; auto.
    destruct (String.eqb (fst kv) k) eqn:Ek.
    + apply String.eqb_eq in Ek. rewrite Ek, E in Hbad. discriminate.
    + apply String.eqb_neq in Ek. now rewrite !assoc_set_other.
Qed.

Lemma apply_push_frame (pushes : dict) (f : string) :
  pushed f pushes = [] ->
  forall d, assoc f (fst (apply_push pushes d)) = assoc f d.
Proof.
  induction pushes as [|[k v] pushes IH]; intros Hf d; auto.
  unfold pushed in Hf. simpl in Hf.
  destruct (String.eqb f k) eqn:Ek; [discriminate|].
  apply String.eqb_neq in Ek. simpl.
  assert (Hc : assoc f (match assoc k d with
                        | Some _ => d
                        | None => dict_set k (VList []) d
                        end) = assoc f d).
  { destruct (assoc k d); auto. unfold dict_set. now apply assoc_set_other. }
  destruct (dict_get k match assoc k d with
                       | Some _ => d
                       | None => dict_set k (VList []) d
                       end); simpl; auto.
  rewrite (IH Hf). unfold dict_set. now rewrite assoc_set_other.
Qed.

(** X3.  When a [$push] names a field of the located document that holds
    something else than a list (once [$set] is applied), [update_one]
    raises [AttributeError] — and the stored document already carries what
    [$set] wrote: every field no [$push] names reads as [$set] left it. *)
Theorem update_one_push_on_non_list_raises_after_set
        (c : MemoryCollection) (filter_dict : filter) (update_doc : update)
        (doc : dict) :
  store_keyed (store c) = true ->
  find_one c filter_dict = Some doc ->
  pushable (apply_set (set_fields update_doc) doc) (push_fields update_doc)
    = false ->
  exists key c' doc',
    assoc "_id" doc = Some key /\
    update_one c filter_dict update_doc = (c', Raise AttributeError) /\
    store_get key (store c') = Some doc' /\
    (forall f, pushed f (push_fields update_doc) = [] ->
               assoc f doc' = after_set (set_fields update_doc) doc f) /\
    (forall key', key' <> key ->
                  store_get key' (store c') = store_get key' (store c)).
Proof.
  intros Hk Hf Hp.
  destruct (update_one_keyed c filter_dict update_doc doc Hk Hf)
    as (k & Hid & Hh & Hget & Hrun).
  rewrite (apply_push_not_pushable _ _ Hp) in Hrun.
  exists k. eexists. eexists. split; [exact Hid|]. split; [exact Hrun|].
  split; [simpl; now apply store_get_set_same|]. split.
  - intros f Hpf. rewrite (apply_push_frame _ _ Hpf). apply apply_set_assoc.
  - intros k' Hne. simpl. now apply store_get_set_other.
Qed.

Lemma update_one_raises_witness :
  exists c' doc',
    update_one demo_collection [("name", Literal (VStr "Maya"))]
               (mkUpdate (Some [("status", VStr "active")])
                         (Some [("name", VStr "x")])) =
      (c', Raise AttributeError) /\
    store_get (VStr "mem_lead_2") (store c') = Some doc' /\
    assoc "status" doc' = Some (VStr "active").
Proof.
  destruct (update_one_push_on_non_list_raises_after_set
              demo_collection [("name", Literal (VStr "Maya"))]
              (mkUpdate (Some [("status", VStr "active")])
                        (Some [("name", VStr "x")]))
              [("_id", VStr "mem_lead_2"); ("name", VStr "Maya");
               ("status", VStr "new"); ("notes", VList [VStr "called"])])
    as (key & c' & doc' & Hkey & Hrun & Hget & Hset & _);
    [reflexivity | reflexivity | reflexivity |].
  vm_compute in Hkey. inversion Hkey; subst key.
  exists c', doc'. split; [exact Hrun|]. split; [exact Hget|].
  now rewrite Hset.
Defined.

Lemma assoc_none_rev {A : Type} (k : string) (l : list (string * A)) :
  assoc k l = None -> assoc k (rev l) = None.
Proof.
  induction l as [|[k0 v0] l IH]; cbn -[String.eqb]; auto.
  destruct (String.eqb k k0) eqn:E; [discriminate|].
  intros H. rewrite (assoc_app_none _ _ _ (IH H)).
  cbn -[String.eqb]. now rewrite E.
Qed.

Lemma assoc_none_pushed (k : string) (l : dict) :
  assoc k l = None -> pushed k l = [].
Proof.
  unfold pushed. induction l as [|[k0 v0] l IH]; cbn -[String.eqb]; auto.
  destruct (String.eqb k k0); [discriminate|auto].
Qed.

(** X4.  Whatever it is asked and however it ends, [update_one] on a store
    filed by [_id] adds no document, drops none and keeps their order; and
    when neither operator names [_id], the store stays filed by [_id]. *)
Theorem update_one_keeps_the_keys
        (c : MemoryCollection) (filter_dict : filter) (update_doc : update) :
  store_keyed (store c) = true ->
  let c' := fst (update_one c filter_dict update_doc) in
  map fst (store c') = map fst (store c) /\
  name c' = name c /\ _auto c' = _auto c /\
  (assoc "_id" (set_fields update_doc) = None ->
   assoc "_id" (push_fields update_doc) = None ->
   store_keyed (store c') = true).
Proof.
  intros Hk. cbv zeta.
  destruct (find_one c filter_dict) as [doc|] eqn:Hf.
  - destruct (update_one_keyed c filter_dict update_doc doc Hk Hf)
      as (k & Hid & Hh & Hget & Hrun).
    rewrite Hrun. simpl. split; [now apply store_set_keys with (d := doc)|].
    split; [reflexivity|]. split; [reflexivity|].
    intros Hs Hp. apply store_keyed_set; auto.
    rewrite apply_push_frame by now apply assoc_none_pushed.
    rewrite apply_set_assoc. unfold after_set.
    now rewrite (assoc_none_rev _ _ Hs).
  - unfold update_one. rewrite Hf. simpl. auto.
Qed.

Lemma update_one_keeps_keys_witness :
  map fst (store (fst (update_one demo_collection
                                  [("name", Literal (VStr "Maya"))]
                                  demo_update))) =
  [VStr "mem_lead_1"; VStr "mem_lead_2"].
Proof.
  destruct (update_one_keeps_the_keys
              demo_collection [("name", Literal (VStr "Maya"))] demo_update)
    as (H & _); [reflexivity|exact H].
Defined.

(** ** Filters and [get_documents] *)

Lemma match_filter_app (d : dict) (f1 f2 : filter) :
  _match_filter d (f1 ++ f2) = _match_filter d f1 && _match_filter d f2.
Proof.
  induction f1 as [|[k fv] f1 IH]; simpl; auto.
  destruct fv as [v|cands].
  - destruct (py_eq (dict_get k d) v); simpl; auto.
  - destruct (py_in (dict_get k d) cands); simpl; auto.
Qed.

(** X5.  Conditions add up: searching with the conditions of two filters
    returns the documents the first filter finds that also pass the second,
    in the same order; with no condition [find] returns every document. *)
Theorem find_with_more_conditions_narrows
        (c : MemoryCollection) (f1 f2 : filter) :
  find c (f1 ++ f2) = List.filter (fun d => _match_filter d f2) (find c f1) /\
  (forall d, In d (find c (f1 ++ f2)) -> In d (find c f1)) /\
  find c [] = map snd (store c).
Proof.
  assert (H : find c (f1 ++ f2) =
              List.filter (fun d => _match_filter d f2) (find c f1)).
  { unfold find. induction (map snd (store c)) as [|d ds IH]; simpl; auto.
    rewrite match_filter_app.
    destruct (_match_filter d f1); simpl; auto.
    destruct (_match_filter d f2); simpl; now rewrite IH. }
  split; [exact H|]. split.
  - intros d Hd. rewrite H in Hd. now apply filter_In in Hd.
  - unfold find. simpl. induction (map snd (store c)) as [|d ds IH]; simpl; auto.
    now rewrite IH.
Qed.

Lemma firstn_prefix {A : Type} (n : nat) (l : list A) :
  exists rest, l = firstn n l ++ rest.
Proof. exists (skipn n l). symmetry. apply firstn_skipn. Qed.

(** X6.  Whatever the limit, [get_documents] returns a prefix of the
    matching documents in store order: all of them without a limit, the
    first [p] for a limit [p > 0] (all when there are fewer), and all but
    the last [p] for a limit [-p]. *)
Theorem get_documents_returns_a_prefix
        (db : MemoryDB) (collection_name : string)
        (filter_dict : option filter) (limit : option Z) :
  let all := find (peek db collection_name)
                  (match filter_dict with Some f => f | None => [] end) in
  (exists rest,
      all = snd (get_documents db collection_name filter_dict limit) ++ rest) /\
  (forall p : positive,
      length (snd (get_documents db collection_name filter_dict
                                 (Some (Z.pos p)))) =
      Nat.min (Pos.to_nat p) (length all)) /\
  (forall p : positive,
      snd (get_documents db collection_name filter_dict (Some (Z.neg p))) =
      firstn (length all - Pos.to_nat p) all).
Proof.
  cbv zeta. unfold get_documents, getitem. cbn [snd]. split; [|split].
  - destruct limit as [n|]; [|exists []; now rewrite app_nil_r].
    destruct (negb (Z.eqb n 0)); [|exists []; now rewrite app_nil_r].
    unfold py_slice_to. destruct (n <? 0)%Z; apply firstn_prefix.
  - intros p. cbn [negb Z.eqb]. unfold py_slice_to. cbn [Z.ltb Z.compare].
    rewrite length_firstn. now rewrite Z2Nat.inj_pos.
  - intros p. cbn [negb Z.eqb]. unfold py_slice_to. cbn [Z.ltb Z.compare].
    f_equal. lia.
Qed.

Lemma assoc_in_keys {A : Type} (k : string) (l : list (string * A)) :
  assoc k l = None -> ~ In k (map fst l).
Proof.
  induction l as [|[k0 v0] l IH]; cbn -[String.eqb]; auto.
  destruct (String.eqb k k0) eqn:E; [discriminate|].
  apply String.eqb_neq in E. intros H [H0|H0]; [congruence|].
  now apply IH.
Qed.

(** X7.  Reading through [get_documents] changes no document of any
    collection, but registers the collection it names: an unknown name is
    added last to [list_collection_names] (and yields no document), a known
    one leaves the names as they are, and no name is ever listed twice. *)
Theorem get_documents_registers_the_collection
        (db : MemoryDB) (collection_name : string)
        (filter_dict : option filter) (limit : option Z) :
  let db' := fst (get_documents db collection_name filter_dict limit) in
  (forall n, peek db' n = peek db n) /\
  list_collection_names db' =
    (if existsb (String.eqb collection_name) (list_collection_names db)
     then list_collection_names db
     else list_collection_names db ++ [collection_name]) /\
  (existsb (String.eqb collection_name) (list_collection_names db) = false ->
   snd (get_documents db collection_name filter_dict limit) = []) /\
  (NoDup (list_collection_names db) -> NoDup (list_collection_names db')).
Proof.
  cbv zeta. unfold get_documents, getitem. cbn [fst snd].
  assert (Hex : existsb (String.eqb collection_name) (list_collection_names db)
                = match assoc collection_name (_collections db) with
                  | Some _ => true
                  | None => false
                  end).
  { unfold list_collection_names.
    induction (_collections db) as [|[k0 c0] l IH]; cbn -[String.eqb]; auto.
    destruct (String.eqb collection_name k0); auto. }
  split; [intros n; apply peek_touch|]. rewrite Hex.
  unfold touch, peek, list_collection_names.
  destruct (assoc collection_name (_collections db)) as [c|] eqn:E.
  - split; [reflexivity|]. split; [discriminate|auto].
  - cbn [_collections]. rewrite map_app. split; [reflexivity|]. split.
    + intros _. unfold find. cbn [store map List.filter].
      destruct limit as [n|]; auto.
      destruct (negb (Z.eqb n 0)); auto.
      unfold py_slice_to. destruct (n <? 0)%Z; apply firstn_nil.
    + intros Hnd. apply NoDup_app; auto.
      * repeat constructor. intros [].
      * intros x Hx [<-|[]]. now apply (assoc_in_keys _ _ E).
Qed.

(** ** The connection registry *)

Lemma list_remove_absent (x : observer) (l : list observer) :
  ~ In x l -> list_remove x l = None.
Proof.
  induction l as [|y l IH]; simpl; auto. intros H.
  destruct (Nat.eqb y x) eqn:E.
  - apply Nat.eqb_eq in E. subst. exfalso. apply H. now left.
  - rewrite IH; auto.
Qed.

Lemma list_remove_last (x : observer) (l : list observer) :
  ~ In x l -> list_remove x (l ++ [x]) = Some l.
Proof.
  induction l as [|y l IH]; simpl; intros H.
  - now rewrite Nat.eqb_refl.
  - destruct (Nat.eqb y x) eqn:E.
    + apply Nat.eqb_eq in E. subst. exfalso. apply H. now left.
    + rewrite IH; auto.
Qed.

(** X8.  [connect] registers the observer last among those of its project
    and touches no other project; [disconnect] of an observer that is not
    registered changes nothing, and disconnecting a newly connected observer
    gives back the observers there were. *)
Theorem connect_then_disconnect
        (m : ConnectionManager) (project_id : string) (ws : observer) :
  observers (connect m project_id ws) project_id =
    observers m project_id ++ [ws] /\
  (forall q, q <> project_id ->
             observers (connect m project_id ws) q = observers m q) /\
  (~ In ws (observers m project_id) -> disconnect m project_id ws = m) /\
  (~ In ws (observers m project_id) ->
   observers (disconnect (connect m project_id ws) project_id ws) project_id =
     observers m project_id).
Proof.
  assert (Hc : observers (connect m project_id ws) project_id =
               observers m project_id ++ [ws]).
  { unfold connect, observers. cbn [active_connections].
    now rewrite assoc_set_same. }
  split; [exact Hc|]. split; [|split].
  - intros q Hq. unfold connect, observers. cbn [active_connections].
    now rewrite assoc_set_other.
  - intros Hn. unfold disconnect, observers in *.
    destruct (assoc project_id (active_connections m)) as [l|]; auto.
    now rewrite (list_remove_absent _ _ Hn).
  - intros Hn. rewrite observers_disconnect_same, Hc.
    now rewrite (list_remove_last _ _ Hn).
Qed.

(** ** Routes, again *)

Section MoreRouteProperties.

Variable ObjectId : value -> option string.
Variable py_repr : value -> string.
Variable utcnow : nat -> Z.
Variable send_json : observer -> value -> bool.
Variable random_choice : list dict -> dict.

#[local] Abbreviation oid_of := (to_obj_id ObjectId).
#[local] Abbreviation str := (py_str py_repr).
#[local] Abbreviation advance :=
  (advance_lead ObjectId py_repr utcnow send_json).
#[local] Abbreviation entry := (history_entry py_repr).

Lemma filter_twice {A : Type} (f : A -> bool) (l : list A) :
  List.filter f (List.filter f l) = List.filter f l.
Proof.
  induction l as [|a l IH]; simpl; auto.
  destruct (f a) eqn:E; simpl; [rewrite E|]; now rewrite ?IH.
Qed.

(** X9.  A broadcast repeated right after another one, with the same
    message, fails for nobody: it is delivered to every observer the first
    one left registered and the registry stays as the first one left
    it. *)
Theorem second_broadcast_reaches_all_survivors
        (project_id : string) (message : value) (w : world) :
  exists w1 w2,
    broadcast send_json project_id message w = (w1, Ok tt) /\
    broadcast send_json project_id message w1 = (w2, Ok tt) /\
    w_manager w2 = w_manager w1 /\
    w_sent w2 =
      w_sent w1 ++ map (fun x => (x, message, true))
                       (observers (w_manager w1) project_id).
Proof.
  destruct (broadcast_loop_spec send_json project_id message
              (observers (w_manager w) project_id) w)
    as (w1 & Hrun1 & Hobs1 & _); [auto|].
  assert (Hall : forall x, In x (observers (w_manager w1) project_id) ->
                           send_json x message = true).
  { intros x Hx. rewrite Hobs1 in Hx. now apply filter_In in Hx. }
  exists w1.
  assert (Hrun2 : forall snapshot w0,
             (forall x, In x snapshot -> send_json x message = true) ->
             broadcast_loop send_json project_id message snapshot w0 =
             (mkWorld (w_db w0) (w_manager w0) (w_clock w0)
                      (w_sent w0 ++ map (fun x => (x, message, true)) snapshot),
              Ok tt)).
  { induction snapshot as [|x snapshot IH]; intros w0 Hs.
    - simpl. rewrite app_nil_r. now destruct w0.
    - simpl. unfold ws_send. rewrite (Hs x (or_introl eq_refl)).
      rewrite IH by (intros y Hy; apply Hs; now right).
      simpl. now rewrite <- app_assoc. }
  eexists. split; [exact Hrun1|]. split.
  { unfold broadcast. apply Hrun2. exact Hall. }
  split; reflexivity.
Qed.

(** X10.  [create_document] stamps and files the data: in a collection
    filed by [_id] it returns the generated id, under which [find_one] then
    finds the data with [updated_at] set to the time of the call (whatever
    the data said), [created_at] kept when the data had one and set to the
    same time otherwise, and every other field as given; the other
    collections are untouched. *)
Theorem create_document_stamps_and_files
        (collection_name : string) (data : dict) (w : world) :
  store_keyed (store (peek (w_db w) collection_name)) = true ->
  exists w' _id doc,
    create_document utcnow collection_name data w = (w', Ok _id) /\
    _id = generated_id (name (peek (w_db w) collection_name))
                       (S (_auto (peek (w_db w) collection_name))) /\
    find_one (peek (w_db w') collection_name) [("_id", Literal (VStr _id))] =
      Some doc /\
    assoc "_id" doc = Some (VStr _id) /\
    assoc "updated_at" doc = Some (VTime (utcnow (w_clock w))) /\
    assoc "created_at" doc =
      Some (match assoc "created_at" data with
            | Some t => t
            | None => VTime (utcnow (w_clock w))
            end) /\
    (forall f, f <> "_id" -> f <> "updated_at" -> f <> "created_at" ->
               assoc f doc = assoc f data) /\
    (forall n, n <> collection_name ->
               peek (w_db w') n = peek (w_db w) n) /\
    w_manager w' = w_manager w /\ w_sent w' = w_sent w.
Proof.
  intros Hk. destruct w as [db mgr clk sent].
  cbn [w_db w_manager w_clock w_sent] in *.
  set (now := VTime (utcnow clk)).
  set (d1 := match assoc "created_at" data with
             | Some _ => data
             | None => dict_set "created_at" now data
             end).
  set (d2 := dict_set "updated_at" now d1).
  set (c := peek db collection_name) in *.
  set (_id := generated_id (name c) (S (_auto c))).
  exists (mkWorld (put (touch db collection_name) collection_name
                       (fst (insert_one c d2)))
                  mgr (S clk) sent),
    _id, (dict_set "_id" (VStr _id) d2).
  split.
  { unfold create_document, bind, datetime_now, db_getitem, coll_insert_one,
      ret. cbn [set_db w_db w_manager w_clock w_sent].
    rewrite peek_touch. fold c. fold now. fold d1. fold d2.
    reflexivity. }
  split; [reflexivity|]. cbn [w_db w_manager w_clock w_sent].
  rewrite peek_put_same.
  assert (Hfind : find_one (fst (insert_one c d2))
                           [("_id", Literal (VStr _id))] =
                  Some (dict_set "_id" (VStr _id) d2)).
  { rewrite find_one_by_id by now apply insert_one_keyed.
    simpl. now apply store_get_set_same. }
  split; [exact Hfind|]. unfold dict_set.
  split; [apply assoc_set_same|].
  split.
  { rewrite assoc_set_other by discriminate. apply assoc_set_same. }
  split.
  { unfold d2, dict_set. rewrite !assoc_set_other by discriminate. unfold d1.
    destruct (assoc "created_at" data) as [t|] eqn:E; [exact E|].
    unfold dict_set. apply assoc_set_same. }
  split.
  { intros f H1 H2 H3. unfold d2, dict_set.
    rewrite !assoc_set_other by auto. unfold d1.
    destruct (assoc "created_at" data); auto.
    unfold dict_set. now rewrite assoc_set_other. }
  split; [|split; reflexivity].
  intros n Hn. rewrite peek_put_other by exact Hn. apply peek_touch.
Qed.

(** The routes that fetch one document by id, run. *)
Lemma get_by_id_run (collection detail id : string) (w : world) :
  get_by_id ObjectId py_repr collection detail id w =
  (set_db (touch (w_db w) collection) w,
   match oid_of (VStr id) with
   | Raise e => Raise e
   | Ok oid =>
       match found (find_one (peek (w_db w) collection)
                             [("_id", Literal oid)]) with
       | None => Raise (HTTPException 404 detail)
       | Some doc => rename_id str doc
       end
   end).
Proof.
  unfold get_by_id, bind, db_getitem, lift, coll_find_one, raise.
  cbn [set_db w_db w_manager w_clock w_sent].
  destruct (oid_of (VStr id)) as [oid|e]; auto.
  rewrite peek_touch.
  destruct (found (find_one (peek (w_db w) collection) [("_id", Literal oid)]));
    reflexivity.
Qed.

Lemma found_by_id_has_id (c : MemoryCollection) (hex : string) (d : dict) :
  find_one c [("_id", Literal (VOid hex))] = Some d ->
  assoc "_id" d = Some (VOid hex).
Proof.
  intros H. apply find_one_in in H. destruct H as (k & _ & Hm).
  simpl in Hm. unfold dict_get in Hm.
  destruct (assoc "_id" d) as [v|]; [|discriminate].
  destruct (py_eq v (VOid hex)) eqn:E; [|discriminate].
  apply py_eq_VOid_r in E. now subst.
Qed.

Lemma store_set_string_ids (k : value) (d : dict) (s : list (value * dict)) :
  string_ids s = true ->
  match assoc "_id" d with Some (VStr _) => true | _ => false end = true ->
  string_ids (store_set k d s) = true.
Proof.
  intros Hs Hd. induction s as [|[k0 d0] s IH]; simpl.
  - now rewrite Hd.
  - simpl in Hs. apply andb_prop in Hs. destruct Hs as [H0 Hs].
    destruct (py_eq k0 k); simpl.
    + now rewrite Hd, Hs.
    + now rewrite H0, (IH Hs).
Qed.

(** X11.  Every stored document carrying a string as [_id] — as all
    documents filed by [insert_one] do, and keep doing — no lead is ever
    found by [advance_lead] or [get_lead], which look for an [ObjectId]:
    both raise an [HTTPException] (400 for an id [ObjectId] rejects, 404
    otherwise) and write nothing. *)
Theorem leads_filed_by_insert_one_are_never_found
        (w : world) (lead_id : string) (to_step : option string) :
  string_ids (store (peek (w_db w) "lead")) = true ->
  (forall data,
      string_ids (store (fst (insert_one (peek (w_db w) "lead") data)))
        = true) /\
  (exists w' status_code detail,
      advance lead_id to_step w =
        (w', Raise (HTTPException status_code detail)) /\
      quiet w w') /\
  (exists w' status_code detail,
      get_lead ObjectId py_repr lead_id w =
        (w', Raise (HTTPException status_code detail)) /\
      quiet w w').
Proof.
  intros Hs.
  assert (Hnone : forall oid, oid_of (VStr lead_id) = Ok oid ->
                    find_one (peek (w_db w) "lead") [("_id", Literal oid)]
                    = None).
  { intros oid Hoid. unfold to_obj_id in Hoid.
    destruct (ObjectId (VStr lead_id)) as [hex|]; [|discriminate].
    inversion Hoid; subst oid. apply find_one_none.
    intros d Hd. apply in_map_iff in Hd. destruct Hd as ([k d'] & <- & Hin).
    unfold string_ids in Hs. rewrite forallb_forall in Hs.
    specialize (Hs _ Hin). simpl in Hs. simpl. unfold dict_get.
    destruct (assoc "_id" d') as [[]|]; try discriminate. reflexivity. }
  split; [|split].
  - intros data. unfold insert_one. cbn [fst store _gen_id name _auto].
    apply store_set_string_ids; auto. unfold dict_set.
    now rewrite assoc_set_same.
  - pose proof (advance_lead_early ObjectId py_repr utcnow send_json
                                   w lead_id to_step) as He.
    unfold stored_lead in He.
    destruct (oid_of (VStr lead_id)) as [oid|e] eqn:Hoid.
    + rewrite (Hnone oid eq_refl) in He. simpl in He.
      do 3 eexists. split; [exact He|]. apply (quiet_touch w ["lead"]).
    + unfold to_obj_id in Hoid.
      destruct (ObjectId (VStr lead_id)); [discriminate|].
      inversion Hoid; subst e.
      do 3 eexists. split; [exact He|]. apply (quiet_touch w ["lead"]).
  - unfold get_lead. rewrite get_by_id_run.
    destruct (oid_of (VStr lead_id)) as [oid|e] eqn:Hoid.
    + rewrite (Hnone oid eq_refl). simpl.
      do 3 eexists. split; [reflexivity|]. apply (quiet_touch w ["lead"]).
    + unfold to_obj_id in Hoid.
      destruct (ObjectId (VStr lead_id)); [discriminate|].
      inversion Hoid; subst e.
      do 3 eexists. split; [reflexivity|]. apply (quiet_touch w ["lead"]).
Qed.

(** Unfold a route and rewrite with the lookups known in the context. *)
Ltac run_route :=
  unfold advance_lead, bind, db_getitem, lift, coll_find_one, raise,
    coll_update_one, datetime_now;
  cbn [set_db w_db w_manager w_clock w_sent];
  repeat (rewrite ?peek_touch, ?find_project_run, ?resolve_project_touch;
          cbn [set_db w_db w_manager w_clock w_sent];
          repeat match goal with
                 | H : forall _, _ = _ |- _ => rewrite H
                 | H : ?l = _ |- context [?l] => rewrite H
                 end).

(** What [advance_lead] does to the registry. *)
Lemma advance_lead_registry (w : world) (lead_id : string)
      (to_step : option string) (oid : value) (lead project : dict)
      (steps : list value) :
  can_advance ObjectId w lead_id oid lead project steps ->
  exists new_step w' u,
    next_step steps (dict_get "current_step" lead) to_step = Ok new_step /\
    advance lead_id to_step w = (w', Ok u) /\
    observers (w_manager w') (str (dict_get "_id" project)) =
      List.filter
        (fun x => send_json x (lead_advanced lead_id
                                 (dict_get "current_step" lead) new_step))
        (observers (w_manager w) (str (dict_get "_id" project))) /\
    (forall q, q <> str (dict_get "_id" project) ->
               observers (w_manager w') q = observers (w_manager w) q).
Proof.
  intros (Hoid & Hk & Hlead & Hproj & Hne & Hsteps & Hst & Hpush).
  destruct w as [db mgr clk sent].
  cbn [w_db w_manager w_clock w_sent] in *.
  destruct (next_step_cases steps (dict_get "current_step" lead) to_step)
    as (new_step & Hnew & _).
  destruct (py_getitem_last steps) as (last & _ & Hlast).
  { destruct steps; [discriminate|congruence]. }
  assert (Hfl : found (Some lead) = Some lead).
  { apply found_some. split; auto.
    destruct (find_one_in _ _ _ Hlead) as (k & Hin & _).
    destruct (store_keyed_in _ _ _ Hk Hin) as (Hid & _).
    destruct lead; [discriminate|reflexivity]. }
  assert (Hfp : found (Some project) = Some project).
  { apply found_some. auto. }
  assert (Hstat : next_status lead steps new_step =
                  Ok (if py_eq new_step last then VStr "won"
                      else dict_get_default "status" (VStr "active") lead)).
  { unfold next_status. now rewrite Hlast. }
  destruct (advance_update_run py_repr (peek db "lead") oid lead
              project lead_id (dict_get "current_step" lead) new_step
              (if py_eq new_step last then VStr "won"
               else dict_get_default "status" (VStr "active") lead)
              (VTime (utcnow clk)) (VTime (utcnow (S clk))) Hk
              (oid_of_inv ObjectId _ _ Hoid) Hlead Hpush)
    as (c' & lead' & Hupd & Hk' & Hlead' & _).
  set (db1 := put (touch (touch (touch db "lead") "project") "lead") "lead" c').
  destruct (broadcast_loop_spec send_json
              (str (dict_get "_id" project))
              (lead_advanced lead_id (dict_get "current_step" lead) new_step)
              (observers mgr (str (dict_get "_id" project)))
              (mkWorld db1 mgr (S (S clk)) sent))
    as (w2 & Hrun & Hobs & Hoth & _ & Hdb & _); [auto|].
  cbn [w_db w_manager w_clock w_sent] in *.
  assert (Hpeek : peek (w_db w2) "lead" = c').
  { rewrite Hdb. apply peek_put_same. }
  destruct (oid_of_inv ObjectId _ _ Hoid) as (hex & ->).
  pose proof (found_by_id_has_id _ _ _ Hlead') as Hid'.
  exists new_step. eexists. eexists. split; [exact Hnew|]. split.
  { run_route. simpl as_steps. cbv iota. run_route.
    fold db1. unfold broadcast. cbn [set_db w_db w_manager w_clock w_sent].
    change (set_db db1 _) with (mkWorld db1 mgr (S (S clk)) sent).
    rewrite Hrun. cbn [set_db w_db w_manager w_clock w_sent].
    rewrite peek_touch, Hpeek, Hlead', Hid'. reflexivity. }
  cbn [set_db w_db w_manager w_clock w_sent]. split; [exact Hobs|exact Hoth].
Qed.

(** X12.  A successful advance writes one document only: the other leads,
    the order of the store and every other collection are as before, and
    of the advanced lead only [current_step], [status], [updated_at] (set
    to the time of the call) and [history] change; what the route returns
    is the lead as stored, [_id] replaced by [id]. *)
Theorem advance_writes_only_the_advanced_lead
        (w : world) (lead_id : string) (to_step : option string)
        (oid : value) (lead project : dict) (steps : list value) :
  can_advance ObjectId w lead_id oid lead project steps ->
  exists w' u lead',
    advance lead_id to_step w = (w', Ok u) /\
    find_one (peek (w_db w') "lead") [("_id", Literal oid)] = Some lead' /\
    rename_id str lead' = Ok u /\
    (forall f, f <> "current_step" -> f <> "status" -> f <> "updated_at" ->
               f <> "history" -> assoc f lead' = assoc f lead) /\
    assoc "updated_at" lead' = Some (VTime (utcnow (w_clock w))) /\
    (forall k, k <> oid ->
               store_get k (store (peek (w_db w') "lead")) =
               store_get k (store (peek (w_db w) "lead"))) /\
    map fst (store (peek (w_db w') "lead")) =
      map fst (store (peek (w_db w) "lead")) /\
    (forall n, n <> "lead" -> peek (w_db w') n = peek (w_db w) n) /\
    w_clock w' = S (S (w_clock w)).
Proof.
  intros Hcan.
  destruct (advance_lead_total ObjectId py_repr utcnow send_json
              w lead_id to_step oid lead project steps Hcan)
    as (new_step & last & w' & u & lead' & _ & _ & Hrun & Hcan' & Hfields &
        Hpeek & Hkeys & Hoth & Hclk & _ & Hu).
  destruct Hcan' as (Hoid & _ & Hlead' & _).
  destruct Hfields as (_ & _ & Hupd & _ & Hsame).
  exists w', u, lead'. split; [exact Hrun|]. split; [exact Hlead'|].
  split.
  { destruct (oid_of_inv ObjectId _ _ Hoid) as (hex & ->).
    unfold rename_id. rewrite (found_by_id_has_id _ _ _ Hlead').
    now rewrite Hu. }
  repeat (split; [assumption|]). exact Hclk.
Qed.

(** X13.  A successful advance notifies the observers of the lead's
    project and nobody else: one send each, in order, of the event
    [{type: "lead_advanced", lead_id, from, to}] carrying the previous and
    the new step; the observers whose send failed are dropped from that
    project's registry and the observers of the other projects stay. *)
Theorem advance_notifies_the_project_observers
        (w : world) (lead_id : string) (to_step : option string)
        (oid : value) (lead project : dict) (steps : list value) :
  can_advance ObjectId w lead_id oid lead project steps ->
  exists new_step w' u,
    next_step steps (dict_get "current_step" lead) to_step = Ok new_step /\
    advance lead_id to_step w = (w', Ok u) /\
    let room := str (dict_get "_id" project) in
    let event := VDict [("type", VStr "lead_advanced");
                        ("lead_id", VStr lead_id);
                        ("from", dict_get "current_step" lead);
                        ("to", new_step)] in
    w_sent w' =
      w_sent w ++ map (fun x => (x, event, send_json x event))
                      (observers (w_manager w) room) /\
    observers (w_manager w') room =
      List.filter (fun x => send_json x event) (observers (w_manager w) room) /\
    (forall q, q <> room ->
               observers (w_manager w') q = observers (w_manager w) q).
Proof.
  intros Hcan.
  destruct (advance_lead_total ObjectId py_repr utcnow send_json
              w lead_id to_step oid lead project steps Hcan)
    as (new_step & last & w' & u & lead' & Hnew & _ & Hrun & _ & _ &
        _ & _ & _ & _ & Hsent & _).
  destruct (advance_lead_registry w lead_id to_step oid lead project steps Hcan)
    as (new_step' & w'' & u' & Hnew' & Hrun' & Hobs & Hoth).
  assert (new_step' = new_step) by congruence. subst new_step'.
  assert (w'' = w') by congruence. subst w''.
  exists new_step, w', u. split; [exact Hnew|]. split; [exact Hrun|].
  cbv zeta. split; [exact Hsent|]. split; [exact Hobs|exact Hoth].
Qed.

(** X14.  [get_lead] after a successful advance returns the document the
    advance returned, and writes nothing. *)
Theorem get_lead_after_advance
        (w : world) (lead_id : string) (to_step : option string)
        (oid : value) (lead project : dict) (steps : list value) :
  can_advance ObjectId w lead_id oid lead project steps ->
  exists w' u w'',
    advance lead_id to_step w = (w', Ok u) /\
    get_lead ObjectId py_repr lead_id w' = (w'', Ok u) /\
    quiet w' w''.
Proof.
  intros Hcan.
  destruct (advance_lead_total ObjectId py_repr utcnow send_json
              w lead_id to_step oid lead project steps Hcan)
    as (new_step & last & w' & u & lead' & _ & _ & Hrun & Hcan' & _ &
        _ & _ & _ & _ & _ & Hu).
  destruct Hcan' as (Hoid & Hk' & Hlead' & _).
  exists w', u. eexists. split; [exact Hrun|]. split.
  - unfold get_lead. rewrite get_by_id_run, Hoid, Hlead'.
    destruct (oid_of_inv ObjectId _ _ Hoid) as (hex & ->).
    pose proof (found_by_id_has_id _ _ _ Hlead') as Hid.
    assert (Hf : found (Some lead') = Some lead').
    { apply found_some. split; auto. destruct lead'; [discriminate|auto]. }
    rewrite Hf. unfold rename_id. rewrite Hid, Hu. reflexivity.
  - apply (quiet_touch w' ["lead"]).
Qed.

(** X15.  No advance takes "won" away: a lead whose status is "won" still
    has status "won" after an advance, whatever step it is moved to. *)
Theorem advance_never_unsets_won
        (w : world) (lead_id : string) (to_step : option string)
        (oid : value) (lead project : dict) (steps : list value) :
  can_advance ObjectId w lead_id oid lead project steps ->
  assoc "status" lead = Some (VStr "won") ->
  exists w' u lead',
    advance lead_id to_step w = (w', Ok u) /\
    find_one (peek (w_db w') "lead") [("_id", Literal oid)] = Some lead' /\
    assoc "status" lead' = Some (VStr "won") /\
    assoc "status" u = Some (VStr "won").
Proof.
  intros Hcan Hwon.
  destruct (advance_lead_total ObjectId py_repr utcnow send_json
              w lead_id to_step oid lead project steps Hcan)
    as (new_step & last & w' & u & lead' & _ & _ & Hrun & Hcan' & Hfields &
        _ & _ & _ & _ & _ & Hu).
  destruct Hcan' as (_ & _ & Hlead' & _).
  destruct Hfields as (_ & Hstatus & _).
  assert (Hs : assoc "status" lead' = Some (VStr "won")).
  { rewrite Hstatus. unfold dict_get_default. rewrite Hwon.
    now destruct (py_eq new_step last). }
  exists w', u, lead'. repeat (split; [assumption|]).
  subst u. unfold dict_set. rewrite assoc_set_other by discriminate.
  now rewrite assoc_remove_other by discriminate.
Qed.


(** X17.  When the lead's [history] holds something that is no list, the
    advance raises [AttributeError] after [update_one] has written the new
    step: the stored lead has moved, its history is as it was, and no
    observer is notified. *)
Theorem advance_with_a_bad_history_moves_the_lead_and_raises
        (w : world) (lead_id : string) (to_step : option string)
        (oid : value) (lead project : dict) (steps : list value) :
  oid_of (VStr lead_id) = Ok oid ->
  store_keyed (store (peek (w_db w) "lead")) = true ->
  find_one (peek (w_db w) "lead") [("_id", Literal oid)] = Some lead ->
  project_of ObjectId (w_db w) lead = Ok (Some project) ->
  dict_get_default "steps" (VList []) project = VList steps ->
  py_truthy (VList steps) = true ->
  pushable lead [("history", VNone)] = false ->
  exists new_step w' lead',
    next_step steps (dict_get "current_step" lead) to_step = Ok new_step /\
    advance lead_id to_step w = (w', Raise AttributeError) /\
    find_one (peek (w_db w') "lead") [("_id", Literal oid)] = Some lead' /\
    assoc "current_step" lead' = Some new_step /\
    assoc "history" lead' = assoc "history" lead /\
    w_sent w' = w_sent w /\ w_manager w' = w_manager w.
Proof.
  intros Hoid Hk Hlead Hproj Hsteps Hst Hpush.
  destruct w as [db mgr clk sent].
  cbn [w_db w_manager w_clock w_sent] in *.
  unfold project_of in Hproj.
  destruct (resolve_project ObjectId db lead) as [p|e] eqn:Hres;
    [|discriminate].
  inversion Hproj as [Hp]. clear Hproj.
  destruct (next_step_cases steps (dict_get "current_step" lead) to_step)
    as (new_step & Hnew & _).
  destruct (py_getitem_last steps) as (last & _ & Hlast).
  { destruct steps; [discriminate|congruence]. }
  assert (Hfound : found (Some lead) = Some lead).
  { apply found_some. split; auto.
    destruct (find_one_in _ _ _ Hlead) as (k & Hin & _).
    destruct (store_keyed_in _ _ _ Hk Hin) as (Hid & _).
    destruct lead; [discriminate|reflexivity]. }
  assert (Hstat : next_status lead steps new_step =
                  Ok (if py_eq new_step last then VStr "won"
                      else dict_get_default "status" (VStr "active") lead)).
  { unfold next_status. now rewrite Hlast. }
  assert (Has : as_steps (VList steps) = Ok steps) by reflexivity.
  set (upd := advance_update py_repr project lead_id
                (dict_get "current_step" lead) new_step
                (if py_eq new_step last then VStr "won"
                 else dict_get_default "status" (VStr "active") lead)
                (VTime (utcnow clk)) (VTime (utcnow (S clk)))).
  destruct (update_one_keyed (peek db "lead") [("_id", Literal oid)] upd lead
              Hk Hlead) as (k & Hid & Hh & Hget & Hrun).
  destruct (oid_of_inv ObjectId _ _ Hoid) as (hex & ->).
  rewrite (found_by_id_has_id _ _ _ Hlead) in Hid. inversion Hid; subst k.
  simpl in Hpush. rewrite andb_true_r in Hpush.
  destruct (assoc "history" lead) as [h|] eqn:Eh; [|discriminate].
  set (d1 := apply_set (set_fields upd) lead) in *.
  assert (Hh1 : assoc "history" d1 = Some h).
  { unfold d1. now rewrite apply_set_assoc. }
  assert (Hpush1 : apply_push (push_fields upd) d1 = (d1, Raise AttributeError)).
  { simpl. rewrite Hh1. unfold dict_get. rewrite Hh1.
    destruct h; try reflexivity. discriminate. }
  rewrite Hpush1 in Hrun. cbn [fst snd] in Hrun. fold upd.
  exists new_step. eexists. exists d1. split; [exact Hnew|]. split.
  { run_route. fold upd. rewrite Hrun. reflexivity. }
  cbn [set_db w_db w_manager w_clock w_sent].
  rewrite peek_put_same.
  assert (Hid1 : assoc "_id" d1 = Some (VOid hex)).
  { unfold d1. rewrite apply_set_assoc. unfold after_set. simpl.
    now apply found_by_id_has_id with (c := peek db "lead"). }
  split.
  { rewrite find_one_by_id by (simpl; now apply store_keyed_set).
    simpl. now apply store_get_set_same. }
  split; [unfold d1; now rewrite apply_set_assoc|].
  split; [now rewrite Hh1|]. split; reflexivity.
Qed.

Lemma Forall2_in_r {A B : Type} (R : A -> B -> Prop) (xs : list A)
      (ys : list B) (y : B) :
  Forall2 R xs ys -> In y ys -> exists x, In x xs /\ R x y.
Proof.
  induction 1 as [|x y0 xs ys HR HF IH]; intros Hin; [destruct Hin|].
  destruct Hin as [<-|Hin].
  - exists x. split; [now left|assumption].
  - destruct (IH Hin) as (x' & Hx' & HR'). exists x'. split; [now right|auto].
Qed.

Lemma rename_ids_all (docs : list dict) :
  (forall d, In d docs -> assoc "_id" d <> None) ->
  exists renamed,
    rename_ids str docs = Ok renamed /\
    Forall2 (fun d l => rename_id str d = Ok l) docs renamed.
Proof.
  induction docs as [|d docs IH]; intros H.
  - exists []. split; [reflexivity|constructor].
  - destruct IH as (ls & Hls & HF); [intros x Hx; apply H; now right|].
    assert (Hd : assoc "_id" d <> None) by (apply H; now left).
    destruct (assoc "_id" d) as [k|] eqn:E; [|congruence].
    exists (dict_set "id" (VStr (str k)) (dict_remove "_id" d) :: ls).
    simpl. unfold rename_id at 1. rewrite E, Hls. split; [reflexivity|].
    constructor; auto. unfold rename_id. now rewrite E.
Qed.

Lemma rename_id_fields (d l : dict) :
  rename_id str d = Ok l ->
  (exists k, assoc "_id" d = Some k /\ assoc "id" l = Some (VStr (str k))) /\
  forall f, f <> "_id" -> f <> "id" -> assoc f l = assoc f d.
Proof.
  unfold rename_id. destruct (assoc "_id" d) as [k|]; [|discriminate].
  intros H. inversion H; subst l. unfold dict_set. split.
  - exists k. split; auto. apply assoc_set_same.
  - intros f H1 H2. rewrite assoc_set_other by auto.
    now apply assoc_remove_other.
Qed.

(** X18.  On a lead store filed by [_id], [get_leads] writes nothing and
    returns, in store order, the leads that pass its query, each with [_id]
    replaced by [id] and its other fields as stored: every lead returned
    for a non-empty [project_id] (or [assigned_to]) has that value in the
    field, while an empty string filters nothing, like an absent
    parameter. *)
Theorem get_leads_returns_the_matching_leads
        (project_id assigned_to : option string) (w : world) :
  store_keyed (store (peek (w_db w) "lead")) = true ->
  exists w' leads,
    get_leads py_repr project_id assigned_to w = (w', Ok leads) /\
    quiet w w' /\
    Forall2 (fun d l =>
               (exists k, assoc "_id" d = Some k /\
                          assoc "id" l = Some (VStr (str k))) /\
               forall f, f <> "_id" -> f <> "id" -> assoc f l = assoc f d)
            (find (peek (w_db w) "lead") (leads_query project_id assigned_to))
            leads /\
    (forall s l, project_id = Some s -> s <> "" -> In l leads ->
                 assoc "project_id" l = Some (VStr s)) /\
    (forall s l, assigned_to = Some s -> s <> "" -> In l leads ->
                 assoc "assigned_to" l = Some (VStr s)) /\
    get_leads py_repr (Some "") assigned_to w =
      get_leads py_repr None assigned_to w /\
    get_leads py_repr project_id (Some "") w =
      get_leads py_repr project_id None w.
Proof.
  intros Hk.
  set (docs := find (peek (w_db w) "lead") (leads_query project_id assigned_to)).
  assert (Hin : forall d, In d docs ->
                  In d (map snd (store (peek (w_db w) "lead"))) /\
                  _match_filter d (leads_query project_id assigned_to) = true).
  { intros d Hd. unfold docs, find in Hd. now apply filter_In in Hd. }
  destruct (rename_ids_all docs) as (leads & Hren & HF).
  { intros d Hd. destruct (Hin d Hd) as [Hs _].
    apply in_map_iff in Hs. destruct Hs as ([k d'] & <- & Hs).
    destruct (store_keyed_in _ _ _ Hk Hs) as (Hid & _). simpl.
    rewrite Hid. discriminate. }
  assert (Hfield : forall name s,
             In (name, Literal (VStr s))
                (leads_query project_id assigned_to) ->
             name <> "_id" -> name <> "id" ->
             forall l, In l leads -> assoc name l = Some (VStr s)).
  { intros name s Hq Hn1 Hn2 l Hl.
    destruct (Forall2_in_r _ _ _ _ HF Hl) as (d & Hd & HR).
    destruct (rename_id_fields _ _ HR) as (_ & Hsame).
    rewrite (Hsame name Hn1 Hn2).
    destruct (Hin d Hd) as [_ Hm]. rewrite match_filter_iff in Hm.
    specialize (Hm _ _ Hq). simpl in Hm. apply py_eq_VStr_r in Hm.
    unfold dict_get in Hm. destruct (assoc name d); [now subst|discriminate]. }
  exists (set_db (touch (w_db w) "lead") w), leads. split.
  { unfold get_leads, bind, db_getitem, coll_find, lift.
    cbn [set_db w_db w_manager w_clock w_sent]. rewrite peek_touch.
    fold docs. now rewrite Hren. }
  split; [apply (quiet_touch w ["lead"])|]. split.
  { eapply Forall2_impl; [|exact HF].
    intros d l HR. now apply rename_id_fields. }
  split; [|split; [|split; reflexivity]].
  - intros s l -> Hs Hl. apply Hfield; try discriminate; auto.
    unfold leads_query. simpl. apply String.eqb_neq in Hs. rewrite Hs.
    now left.
  - intros s l -> Hs Hl. apply Hfield; try discriminate; auto.
    unfold leads_query. apply in_or_app. right. simpl.
    apply String.eqb_neq in Hs. rewrite Hs. now left.
Qed.

(** X19.  [advance_random] never advances a lead: with no lead in the
    project it raises 404, and otherwise the call it makes to
    [advance_lead] lacks the [payload] argument and raises; nothing is
    written or sent either way. *)
Theorem advance_random_never_advances (project_id : string) (w : world) :
  exists w' e,
    advance_random random_choice project_id w = (w', Raise e) /\
    quiet w w' /\
    (find (peek (w_db w) "lead") [("project_id", Literal (VStr project_id))]
       = [] ->
     e = HTTPException 404 "No leads in project") /\
    (find (peek (w_db w) "lead") [("project_id", Literal (VStr project_id))]
       <> [] ->
     e = TypeError \/ e = KeyError).
Proof.
  unfold advance_random, bind, db_getitem, coll_find, raise.
  cbn [set_db w_db w_manager w_clock w_sent]. rewrite peek_touch.
  destruct (find (peek (w_db w) "lead")
                 [("project_id", Literal (VStr project_id))]) as [|d ds].
  - do 2 eexists. split; [reflexivity|].
    split; [apply (quiet_touch w ["lead"])|]. split; [auto|congruence].
  - destruct (assoc "_id" (random_choice (d :: ds)));
      do 2 eexists; (split; [reflexivity|]);
      (split; [apply (quiet_touch w ["lead"])|]);
      (split; [discriminate|auto]).
Qed.

(** X20.  [get_project] and [get_lead] only read: they raise 400 for an id
    [ObjectId] rejects and 404 when no document has the id; otherwise they
    return the document with [id] holding the id as a string and every
    field but [_id] and [id] as stored. *)
Theorem get_by_id_reads_one_document
        (collection detail id : string) (w : world) :
  exists w' r,
    get_by_id ObjectId py_repr collection detail id w = (w', r) /\
    quiet w w' /\
    (ObjectId (VStr id) = None ->
     r = Raise (HTTPException 400 "Invalid ID format")) /\
    (forall hex,
        ObjectId (VStr id) = Some hex ->
        match find_one (peek (w_db w) collection)
                       [("_id", Literal (VOid hex))] with
        | None => r = Raise (HTTPException 404 detail)
        | Some doc =>
            exists u, r = Ok u /\ assoc "id" u = Some (VStr hex) /\
                      forall f, f <> "_id" -> f <> "id" ->
                                assoc f u = assoc f doc
        end).
Proof.
  do 2 eexists. split; [apply get_by_id_run|].
  split; [apply (quiet_touch w [collection])|]. unfold to_obj_id. split.
  - intros ->. reflexivity.
  - intros hex ->.
    destruct (find_one (peek (w_db w) collection)
                       [("_id", Literal (VOid hex))]) as [doc|] eqn:Hf;
      [|reflexivity].
    pose proof (found_by_id_has_id _ _ _ Hf) as Hid.
    assert (Hfd : found (Some doc) = Some doc).
    { apply found_some. split; auto. destruct doc; [discriminate|auto]. }
    rewrite Hfd.
    destruct (rename_id str doc) as [u|e] eqn:Hr.
    + exists u. split; [reflexivity|].
      destruct (rename_id_fields _ _ Hr) as ((k & Hk & Hu) & Hsame).
      rewrite Hid in Hk. inversion Hk; subst k. split; auto.
    + unfold rename_id in Hr. rewrite Hid in Hr. discriminate.
Qed.

End MoreRouteProperties.

(** ** The further properties on the demo database *)

Lemma create_document_witness :
  exists w' doc,
    create_document demo_utcnow "lead" [("name", VStr "Noah")]
                    (mkWorld (mkDB "memory" [("lead", demo_collection)])
                             (mkManager []) 7 []) =
      (w', Ok "mem_lead_3") /\
    find_one (peek (w_db w') "lead") [("_id", Literal (VStr "mem_lead_3"))] =
      Some doc /\
    assoc "created_at" doc = Some (VTime 1700000007) /\
    assoc "name" doc = Some (VStr "Noah").
Proof.
  destruct (create_document_stamps_and_files
              demo_utcnow "lead" [("name", VStr "Noah")]
              (mkWorld (mkDB "memory" [("lead", demo_collection)])
                       (mkManager []) 7 []))
    as (w' & _id & doc & Hrun & Hid & Hfind & _ & _ & Hc & Hsame & _);
    [reflexivity|].
  vm_compute in Hid. subst _id. exists w', doc.
  split; [exact Hrun|]. split; [exact Hfind|]. split; [exact Hc|].
  rewrite Hsame by discriminate. reflexivity.
Defined.

Lemma leads_never_found_witness :
  exists w' status_code detail,
    demo_advance "mem_lead_1" None
                 (mkWorld (mkDB "memory" [("lead", demo_collection)])
                          (mkManager []) 0 []) =
      (w', Raise (HTTPException status_code detail)).
Proof.
  destruct (leads_filed_by_insert_one_are_never_found
              demo_ObjectId demo_repr demo_utcnow demo_send_json
              (mkWorld (mkDB "memory" [("lead", demo_collection)])
                       (mkManager []) 0 [])
              "mem_lead_1" None)
    as (_ & (w' & c & d & Hrun & _) & _); [reflexivity|].
  exists w', c, d. exact Hrun.
Defined.

Lemma advance_writes_only_witness :
  exists w' u,
    demo_advance demo_lead_id None
                 (demo_world (demo_project abc)
                             (demo_lead demo_project_id "A" "new")) =
      (w', Ok u) /\
    assoc "name" u = Some (VStr "Leo 100") /\
    peek (w_db w') "project" =
      mkCollection "project" [(VOid demo_project_id, demo_project abc)] 0.
Proof.
  destruct (advance_writes_only_the_advanced_lead
              demo_ObjectId demo_repr demo_utcnow demo_send_json
              (demo_world (demo_project abc)
                          (demo_lead demo_project_id "A" "new"))
              demo_lead_id None (VOid demo_lead_id)
              (demo_lead demo_project_id "A" "new") (demo_project abc) abc)
    as (w' & u & lead' & Hrun & _ & Hu & Hsame & _ & _ & _ & Hpeek & _).
  { demo_can_advance. }
  exists w', u. split; [exact Hrun|]. split.
  - unfold rename_id in Hu.
    destruct (assoc "_id" lead') as [k|]; [|discriminate].
    inversion Hu. unfold dict_set. rewrite assoc_set_other by discriminate.
    rewrite assoc_remove_other by discriminate.
    rewrite Hsame by discriminate. reflexivity.
  - rewrite Hpeek by discriminate. reflexivity.
Defined.

Lemma advance_notifies_witness :
  exists w' u,
    demo_advance demo_lead_id None
                 (demo_world (demo_project abc)
                             (demo_lead demo_project_id "A" "new")) =
      (w', Ok u) /\
    observers (w_manager w') demo_project_id = [1; 3] /\
    length (w_sent w') = 3.
Proof.
  destruct (advance_notifies_the_project_observers
              demo_ObjectId demo_repr demo_utcnow demo_send_json
              (demo_world (demo_project abc)
                          (demo_lead demo_project_id "A" "new"))
              demo_lead_id None (VOid demo_lead_id)
              (demo_lead demo_project_id "A" "new") (demo_project abc) abc)
    as (new_step & w' & u & _ & Hrun & Hsent & Hobs & _).
  { demo_can_advance. }
  exists w', u. split; [exact Hrun|]. split.
  - exact Hobs.
  - rewrite Hsent. reflexivity.
Defined.

Lemma get_lead_after_advance_witness :
  exists w' u w'',
    demo_advance demo_lead_id (Some "C")
                 (demo_world (demo_project abc)
                             (demo_lead demo_project_id "A" "new")) =
      (w', Ok u) /\
    get_lead demo_ObjectId demo_repr demo_lead_id w' = (w'', Ok u).
Proof.
  destruct (get_lead_after_advance
              demo_ObjectId demo_repr demo_utcnow demo_send_json
              (demo_world (demo_project abc)
                          (demo_lead demo_project_id "A" "new"))
              demo_lead_id (Some "C") (VOid demo_lead_id)
              (demo_lead demo_project_id "A" "new") (demo_project abc) abc)
    as (w' & u & w'' & Hrun & Hget & _).
  { demo_can_advance. }
  exists w', u, w''. auto.
Defined.

Lemma advance_never_unsets_won_witness :
  exists w' u,
    demo_advance demo_lead_id (Some "A")
                 (demo_world (demo_project abc)
                             (demo_lead demo_project_id "C" "won")) =
      (w', Ok u) /\
    assoc "status" u = Some (VStr "won").
Proof.
  destruct (advance_never_unsets_won
              demo_ObjectId demo_repr demo_utcnow demo_send_json
              (demo_world (demo_project abc)
                          (demo_lead demo_project_id "C" "won"))
              demo_lead_id (Some "A") (VOid demo_lead_id)
              (demo_lead demo_project_id "C" "won") (demo_project abc) abc)
    as (w' & u & lead' & Hrun & _ & _ & Hu).
  { demo_can_advance. }
  { reflexivity. }
  exists w', u. auto.
Defined.


Lemma advance_with_a_bad_history_witness :
  exists w' lead',
    demo_advance demo_lead_id None
                 (demo_world (demo_project abc)
                             (dict_set "history" (VStr "none")
                                       (demo_lead demo_project_id "A" "new"))) =
      (w', Raise AttributeError) /\
    find_one (peek (w_db w') "lead") [("_id", Literal (VOid demo_lead_id))] =
      Some lead' /\
    assoc "current_step" lead' = Some (VStr "B") /\
    w_sent w' = [].
Proof.
  destruct (advance_with_a_bad_history_moves_the_lead_and_raises
              demo_ObjectId demo_repr demo_utcnow demo_send_json
              (demo_world (demo_project abc)
                          (dict_set "history" (VStr "none")
                                    (demo_lead demo_project_id "A" "new")))
              demo_lead_id None (VOid demo_lead_id)
              (dict_set "history" (VStr "none")
                        (demo_lead demo_project_id "A" "new"))
              (demo_project abc) abc)
    as (new_step & w' & lead' & Hnew & Hrun & Hlead' & Hcur & _ & Hsent & _);
    try reflexivity.
  vm_compute in Hnew. inversion Hnew; subst new_step.
  exists w', lead'. auto.
Defined.

Lemma get_leads_witness :
  exists w' leads,
    get_leads demo_repr (Some demo_project_id) None
              (demo_world (demo_project abc)
                          (demo_lead demo_project_id "A" "new")) =
      (w', Ok leads) /\
    length leads = 1.
Proof.
  destruct (get_leads_returns_the_matching_leads
              demo_repr (Some demo_project_id) None
              (demo_world (demo_project abc)
                          (demo_lead demo_project_id "A" "new")))
    as (w' & leads & Hrun & _ & HF & _); [reflexivity|].
  exists w', leads. split; [exact Hrun|].
  exact (eq_sym (Forall2_length HF)).
Defined.

(** ** The earlier backend *)

Lemma backend_find_from_first (data : list dict) (f : dict) (i r : nat) :
  match Backend.find_from i data f with
  | r0 :: _ => Some r0
  | [] => None
  end = Some r <->
  i <= r /\ r - i < length data /\
  Backend.matches (nth (r - i) data []) f = true /\
  forall j, j < r - i -> Backend.matches (nth j data []) f = false.
Proof.
  revert i. induction data as [|d data IH]; intros i; simpl.
  - split; [discriminate|]. intros (_ & H & _). lia.
  - destruct (Backend.matches d f) eqn:E.
    + split.
      * intros H. inversion H; subst. rewrite Nat.sub_diag.
        repeat split; auto; lia.
      * intros (Hi & Hl & Hm & Hpre). f_equal.
        destruct (r - i) as [|k] eqn:Ek; [lia|].
        specialize (Hpre 0 (Nat.lt_0_succ k)). simpl in Hpre. congruence.
    + rewrite IH. split.
      * intros (Hi & Hl & Hm & Hpre).
        replace (r - i) with (S (r - S i)) by lia.
        repeat split; try lia; auto.
        intros [|j] Hj; auto. apply Hpre. lia.
      * intros (Hi & Hl & Hm & Hpre).
        destruct (r - i) as [|k] eqn:Ek; [simpl in Hm; congruence|].
        replace (r - S i) with k by lia.
        repeat split; try lia; auto.
        intros j Hj. apply (Hpre (S j)). lia.
Qed.

Lemma backend_store_at_nth (r j : nat) (d : dict) (data : list dict) :
  r < length data ->
  length (Backend.store_at r d data) = length data /\
  nth j (Backend.store_at r d data) [] = if Nat.eqb j r then d else nth j data [].
Proof.
  revert r j. induction data as [|d0 data IH]; intros r j Hr; simpl in Hr;
    [lia|].
  destruct r as [|r]; simpl.
  - split; auto. destruct j; auto.
  - assert (Hr' : r < length data) by lia. split.
    + now rewrite (proj1 (IH r 0 Hr')).
    + destruct j as [|j]; [reflexivity|]. exact (proj2 (IH r j Hr')).
Qed.

Lemma py_in_index (x : value) (xs : list value) (i : nat) :
  py_in x xs = true -> exists j, index_from x xs i = Some j.
Proof.
  unfold py_in. revert i. induction xs as [|e xs IH]; intros i; simpl;
    [discriminate|].
  destruct (py_eq e x); simpl; eauto.
Qed.

Lemma index_from_none (x : value) (xs : list value) (i : nat) :
  py_in x xs = false -> index_from x xs i = None.
Proof.
  unfold py_in. revert i. induction xs as [|e xs IH]; intros i; simpl; auto.
  destruct (py_eq e x); simpl; [discriminate|auto].
Qed.

Lemma backend_next_index (step : value) :
  (if py_in step Backend.STEPS then py_index step Backend.STEPS else Ok 0%Z)
  = Ok (Z.of_nat (Backend.rank step)) /\
  Backend.rank step <= 3.
Proof.
  unfold Backend.rank, py_index.
  destruct (py_in step Backend.STEPS) eqn:E.
  - destruct (py_in_index _ _ 0 E) as (j & Hj). rewrite Hj.
    apply index_from_bound in Hj. simpl in Hj. split; [reflexivity|lia].
  - rewrite (index_from_none _ _ 0 E). split; [reflexivity|lia].
Qed.

Lemma backend_rank_nth (j : nat) :
  j <= 3 -> Backend.rank (nth j Backend.STEPS VNone) = j.
Proof.
  intros H. destruct j as [|[|[|[|j]]]]; try reflexivity. lia.
Qed.

(** One call of the backend [advance] for a lead that is found. *)
Lemma backend_advance_run (lead_id : string) (now : value)
      (data : list dict) (r : nat) (step : value) :
  Backend.find_one data [("_id", VStr lead_id)] = Some r ->
  assoc "step" (Backend.deref data r) = Some step ->
  let new_step := nth (Nat.min (Backend.rank step + 1) 3) Backend.STEPS VNone in
  let lead' := dict_set "updated_at" now
                        (dict_set "step" new_step (Backend.deref data r)) in
  Backend.advance lead_id now data =
    (Backend.store_at r lead' data, Ok (Some lead')) /\
  Backend.find_one (Backend.store_at r lead' data) [("_id", VStr lead_id)] =
    Some r /\
  Backend.deref (Backend.store_at r lead' data) r = lead' /\
  length (Backend.store_at r lead' data) = length data /\
  (forall j, j <> r ->
             Backend.deref (Backend.store_at r lead' data) j =
             Backend.deref data j).
Proof.
  intros Hf Hs. cbv zeta.
  assert (Hne : is_empty_dict (Backend.deref data r) = false).
  { destruct (Backend.deref data r); [discriminate|reflexivity]. }
  set (lead := Backend.deref data r) in *.
  set (new_step := nth (Nat.min (Backend.rank step + 1) 3) Backend.STEPS VNone).
  set (lead' := dict_set "updated_at" now (dict_set "step" new_step lead)).
  pose proof Hf as Hfirst. unfold Backend.find_one, Backend.find in Hfirst.
  apply backend_find_from_first in Hfirst. rewrite Nat.sub_0_r in Hfirst.
  destruct Hfirst as (_ & Hr & Hm & Hpre).
  destruct (backend_next_index step) as [Hidx Hrank].
  assert (Hget : py_getitem Backend.STEPS
                   (Z.min (Z.of_nat (Backend.rank step) + 1)
                          (Z.of_nat (length Backend.STEPS) - 1)) = Ok new_step).
  { unfold new_step.
    destruct (Backend.rank step) as [|[|[|[|k]]]]; try reflexivity. lia. }
  assert (Hm' : Backend.matches lead' [("_id", VStr lead_id)] = true).
  { fold (Backend.deref data r) in Hm. fold lead in Hm.
    simpl in *. unfold lead', dict_get, dict_set in *.
    now rewrite !assoc_set_other by discriminate. }
  split.
  { unfold Backend.advance. rewrite Hf. fold lead.
    rewrite Hne, Hs, Hidx, Hget. reflexivity. }
  split.
  { unfold Backend.find_one, Backend.find. apply backend_find_from_first.
    rewrite Nat.sub_0_r.
    destruct (backend_store_at_nth r r lead' data Hr) as [Hl Hn].
    rewrite Nat.eqb_refl in Hn. rewrite Hl, Hn.
    repeat split; auto; try lia.
    intros j Hj. destruct (backend_store_at_nth r j lead' data Hr) as [_ Hj'].
    rewrite Hj'. destruct (Nat.eqb j r) eqn:E; [|auto].
    apply Nat.eqb_eq in E. lia. }
  split.
  { unfold Backend.deref at 1.
    destruct (backend_store_at_nth r r lead' data Hr) as [_ Hn].
    now rewrite Nat.eqb_refl in Hn. }
  split; [apply (backend_store_at_nth r 0 lead' data Hr)|].
  intros j Hj. unfold Backend.deref.
  destruct (backend_store_at_nth r j lead' data Hr) as [_ Hn]. rewrite Hn.
  destruct (Nat.eqb j r) eqn:E; auto. apply Nat.eqb_eq in E. contradiction.
Qed.

(** X21.  The backend [advance] changes the stored lead itself — [find_one]
    hands out the stored dict, no copy: the lead found for the id moves
    from "New" to "Qualified", from there to "Meeting", to "Closed", stays
    on "Closed", and restarts at "Qualified" from a step that is none of
    these; its [updated_at] is set, its other fields and all other
    documents stay, and the next [find_one] finds the document the route
    returned. *)
Theorem backend_advance_moves_the_stored_lead
        (lead_id : string) (now : value) (data : list dict) (r : nat)
        (step : value) :
  Backend.find_one data [("_id", VStr lead_id)] = Some r ->
  assoc "step" (Backend.deref data r) = Some step ->
  exists data' lead' new_step,
    Backend.advance lead_id now data = (data', Ok (Some lead')) /\
    Backend.find_one data' [("_id", VStr lead_id)] = Some r /\
    Backend.deref data' r = lead' /\
    assoc "step" lead' = Some new_step /\
    assoc "updated_at" lead' = Some now /\
    (forall f, f <> "step" -> f <> "updated_at" ->
               assoc f lead' = assoc f (Backend.deref data r)) /\
    (step = VStr "New" -> new_step = VStr "Qualified") /\
    (step = VStr "Qualified" -> new_step = VStr "Meeting") /\
    (step = VStr "Meeting" -> new_step = VStr "Closed") /\
    (step = VStr "Closed" -> new_step = VStr "Closed") /\
    (py_in step Backend.STEPS = false -> new_step = VStr "Qualified") /\
    length data' = length data /\
    (forall j, j <> r -> Backend.deref data' j = Backend.deref data j).
Proof.
  intros Hf Hs.
  destruct (backend_advance_run lead_id now data r step Hf Hs)
    as (Hrun & Hfind & Hderef & Hlen & Hoth).
  do 3 eexists. split; [exact Hrun|]. split; [exact Hfind|].
  split; [exact Hderef|]. unfold dict_set.
  split; [rewrite assoc_set_other by discriminate; apply assoc_set_same|].
  split; [apply assoc_set_same|].
  split; [intros f H1 H2; now rewrite !assoc_set_other by auto|].
  split; [now intros ->|]. split; [now intros ->|].
  split; [now intros ->|]. split; [now intros ->|].
  split; [|split; [exact Hlen|exact Hoth]].
  intros Hin. unfold Backend.rank. now rewrite (index_from_none _ _ 0 Hin).
Qed.

Lemma backend_advance_times_step (lead_id : string) (r : nat)
      (nows : list value) :
  forall (data : list dict) (step : value),
    Backend.find_one data [("_id", VStr lead_id)] = Some r ->
    assoc "step" (Backend.deref data r) = Some step ->
    Backend.find_one (Backend.advance_times lead_id nows data)
                     [("_id", VStr lead_id)] = Some r /\
    exists step',
      assoc "step" (Backend.deref (Backend.advance_times lead_id nows data) r)
        = Some step' /\
      (nows <> [] ->
       step' = nth (Nat.min (Backend.rank step + length nows) 3)
                   Backend.STEPS VNone).
Proof.
  induction nows as [|now nows IH]; intros data step Hf Hs.
  - simpl. split; auto. exists step. split; auto. congruence.
  - destruct (backend_advance_run lead_id now data r step Hf Hs)
      as (Hrun & Hfind & Hderef & _).
    simpl. rewrite Hrun. cbn [fst].
    set (step1 := nth (Nat.min (Backend.rank step + 1) 3) Backend.STEPS VNone)
      in *.
    destruct (IH _ step1 Hfind) as (Hf' & step' & Hs' & Hn).
    { rewrite Hderef. unfold dict_set.
      rewrite assoc_set_other by discriminate. apply assoc_set_same. }
    split; [exact Hf'|]. exists step'. split; [exact Hs'|]. intros _.
    destruct nows as [|now' nows'].
    + simpl in Hs'. rewrite Hderef in Hs'. unfold dict_set in Hs'.
      rewrite assoc_set_other in Hs' by discriminate.
      rewrite assoc_set_same in Hs'. inversion Hs'. reflexivity.
    + rewrite Hn by discriminate. unfold step1.
      rewrite (backend_rank_nth (Nat.min (Backend.rank step + 1) 3))
        by apply Nat.le_min_r.
      apply (f_equal (fun j => nth j Backend.STEPS VNone)).
      simpl length. lia.
Qed.

(** X22.  Three or more backend advances of a lead leave it on "Closed",
    whatever step it started from. *)
Theorem backend_three_advances_close_the_lead
        (lead_id : string) (r : nat) (nows : list value) (data : list dict)
        (step : value) :
  Backend.find_one data [("_id", VStr lead_id)] = Some r ->
  assoc "step" (Backend.deref data r) = Some step ->
  3 <= length nows ->
  Backend.find_one (Backend.advance_times lead_id nows data)
                   [("_id", VStr lead_id)] = Some r /\
  assoc "step" (Backend.deref (Backend.advance_times lead_id nows data) r) =
    Some (VStr "Closed").
Proof.
  intros Hf Hs Hn.
  destruct (backend_advance_times_step lead_id r nows data step Hf Hs)
    as (Hf' & step' & Hs' & Hstep).
  split; [exact Hf'|]. rewrite Hs', Hstep by (destruct nows; simpl in Hn; [lia|discriminate]).
  replace (Nat.min (Backend.rank step + length nows) 3) with 3 by lia.
  reflexivity.
Qed.

Lemma backend_advance_witness :
  exists data' lead',
    Backend.advance "lead_1" (VInt 5)
                    [[("_id", VStr "lead_0"); ("step", VStr "New")];
                     [("_id", VStr "lead_1"); ("step", VStr "Meeting")]] =
      (data', Ok (Some lead')) /\
    assoc "step" lead' = Some (VStr "Closed") /\
    Backend.deref data' 1 = lead'.
Proof.
  destruct (backend_advance_moves_the_stored_lead
              "lead_1" (VInt 5)
              [[("_id", VStr "lead_0"); ("step", VStr "New")];
               [("_id", VStr "lead_1"); ("step", VStr "Meeting")]]
              1 (VStr "Meeting"))
    as (data' & lead' & new_step & Hrun & _ & Hderef & Hstep & _ & _ & _ & _ &
        Hm & _); [reflexivity | reflexivity |].
  exists data', lead'. split; [exact Hrun|].
  rewrite Hstep, (Hm eq_refl). auto.
Defined.

Lemma backend_three_advances_witness :
  assoc "step"
        (Backend.deref
           (Backend.advance_times "lead_1" [VInt 1; VInt 2; VInt 3]
              [[("_id", VStr "lead_1"); ("step", VStr "imported")]]) 0) =
  Some (VStr "Closed").
Proof.
  destruct (backend_three_advances_close_the_lead
              "lead_1" 0 [VInt 1; VInt 2; VInt 3]
              [[("_id", VStr "lead_1"); ("step", VStr "imported")]]
              (VStr "imported"))
    as [_ H]; [reflexivity | reflexivity | simpl; lia | exact H].
Defined.
